(** * go-eth2-client: the error-injecting test client and the multi-client
      SlotDuration call

    The development embeds two Go packages:
    - [testclients] (erroring.go): the [Erroring] decorator, which rolls a
      random number before every call and either returns an injected error
      or forwards the call to the wrapped service;
    - [multi] (slotduration.go): [Service.SlotDuration] of the multi-client
      service, which answers from the first client of the active roster.

    Go code is effectful: it draws from the process-wide random source,
    reads the clock, takes locks and calls into other services.  The
    effects are made explicit by a small monad [M] that threads the
    environment and collects a trace of the observable events. *)

From Stdlib Require Import ZArith NArith List Ascii String Bool Lia.
From Stdlib Require Import Floats.SpecFloat.
Import ListNotations.
Local Open Scope string_scope.
Local Open Scope list_scope.

Set Implicit Arguments.

(* ================================================================== *)
(** ** Go values *)

(** float64 with the IEEE 754 comparison: every comparison with a NaN is
    false. *)
Definition float64 : Type := spec_float.

(** The constants [0] and [1] converted to float64.  A finite binary64
    number is [m * 2^e] with a mantissa of 53 bits, so 1 is [2^52 * 2^-52];
    the comparison of SpecFloat is the order of the numbers on such
    normalised values. *)
Definition float64_0 : float64 := S754_zero false.
Definition float64_1 : float64 := S754_finite false 4503599627370496 (-52).

(** [x < y] and [x > y] on float64. *)
Definition float64_lt (x y : float64) : bool := SFltb x y.
Definition float64_gt (x y : float64) : bool :=
  match SFcompare x y with
  | Some Gt => true
  | _ => false
  end.

(** A Go array [[n]T]: exactly [n] elements. *)
Fixpoint array (A : Type) (n : nat) : Type :=
  match n with
  | O => unit
  | S n' => (A * array A n')%type
  end.

Fixpoint array_const (A : Type) (a : A) (n : nat) : array A n :=
  match n return array A n with
  | O => tt
  | S n' => (a, array_const a n')
  end.

(** Struct, function and interface types that are declared in other
    packages; the code of this development only passes their values on. *)
Inductive TypeName : Type :=
| api_AttesterDuty | api_ProposerDuty | api_BeaconBlockHeader
| api_BeaconCommittee | api_BeaconCommitteeSubscription | api_Finality
| api_Genesis | api_SyncState | api_Validator | api_DepositContract
| spec_Attestation | spec_AttestationData | spec_SignedAggregateAndProof
| spec_BeaconBlock | spec_SignedBeaconBlock | spec_BeaconState | spec_Fork
| spec_SignedVoluntaryExit
| time_Location
| eth2client_EventHandlerFunc
| empty_interface.

(** What the two packages take from outside: the contents of the foreign
    types (with the zero value each has), the request context, the state of the beacon nodes behind the
    services, and the generator of math/rand. *)
Class Externals : Type := {
  Context : Type;
  Decl : TypeName -> Type;
  Decl_zero : forall d : TypeName, Decl d;
  Backend : Type;
  Source : Type;
  rand_Seed : Z -> Source;
  rand_Float64 : Source -> float64 * Source
}.

(** The Go types that occur in the signatures. *)
Inductive gotype : Type :=
| TByte
| TUint64
| TInt64
| TString
| TByteArray (n : nat)
| TNamed (d : TypeName)
| TPtr (t : gotype)
| TSlice (t : gotype)
| TMap (k v : gotype)
| TFunc (d : TypeName)
| TInterface
| TTime
| TNoValue.

(** time.Time is a struct of a wall-clock word, a monotonic reading and a
    location pointer. *)
Record Time_struct (L : Type) : Type := mkTime {
  wall : N;
  ext : Z;
  loc : option L
}.

Fixpoint denote `{Externals} (t : gotype) : Type :=
  match t with
  | TByte => Byte.byte
  | TUint64 => N
  | TInt64 => Z
  | TString => string
  | TByteArray n => array Byte.byte n
  | TNamed d => Decl d
  | TPtr t' => option (denote t')
  | TSlice t' => list (denote t')
  | TMap k v => list (denote k * denote v)
  | TFunc d => option (Decl d)
  | TInterface => option (Decl empty_interface)
  | TTime => Time_struct (Decl time_Location)
  | TNoValue => unit
  end.

(** The zero value of a Go type: [0], [""], [nil], an array or struct of
    zero values. *)
Definition zero_value `{Externals} (t : gotype) : denote t :=
  match t return denote t with
  | TByte => Byte.x00
  | TUint64 => 0%N
  | TInt64 => 0%Z
  | TString => EmptyString
  | TByteArray n => array_const Byte.x00 n
  | TNamed d => Decl_zero d
  | TPtr _ => None
  | TSlice _ => nil
  | TMap _ _ => nil
  | TFunc _ => None
  | TInterface => None
  | TTime => mkTime 0%N 0%Z None
  | TNoValue => tt
  end.

(** Go's [nil] at the three kinds of type it is used at. *)
Definition nil_slice {A : Type} : list A := nil.
Definition nil_pointer {A : Type} : option A := None.
Definition nil_map {K V : Type} : list (K * V) := nil.

(** An argument list as a nested pair. *)
Fixpoint tuple `{Externals} (ts : list gotype) : Type :=
  match ts with
  | nil => unit
  | t :: nil => denote t
  | t :: ts' => (denote t * tuple ts')%type
  end.

(** Package time. *)
Module time.
Definition Duration : gotype := TInt64.
Definition Time : gotype := TTime.
(** The composite literal [time.Time{}]. *)
Definition Time_literal {L : Type} : Time_struct L := mkTime 0%N 0%Z None.
End time.

(** Package spec/phase0. *)
Module spec.
Definition Epoch : gotype := TUint64.
Definition Slot : gotype := TUint64.
Definition ValidatorIndex : gotype := TUint64.
Definition CommitteeIndex : gotype := TUint64.
Definition Gwei : gotype := TUint64.
Definition BLSPubKey : gotype := TByteArray 48.
Definition BLSSignature : gotype := TByteArray 96.
Definition Root : gotype := TByteArray 32.
Definition DomainType : gotype := TByteArray 4.
Definition Domain : gotype := TByteArray 32.
Definition Attestation : gotype := TNamed spec_Attestation.
Definition AttestationData : gotype := TNamed spec_AttestationData.
Definition SignedAggregateAndProof : gotype := TNamed spec_SignedAggregateAndProof.
Definition BeaconBlock : gotype := TNamed spec_BeaconBlock.
Definition SignedBeaconBlock : gotype := TNamed spec_SignedBeaconBlock.
Definition BeaconState : gotype := TNamed spec_BeaconState.
Definition Fork : gotype := TNamed spec_Fork.
Definition SignedVoluntaryExit : gotype := TNamed spec_SignedVoluntaryExit.
(** The composite literals [spec.DomainType{}] and [spec.Domain{}]. *)
Definition DomainType_literal : array Byte.byte 4 := array_const Byte.x00 4.
Definition Domain_literal : array Byte.byte 32 := array_const Byte.x00 32.
End spec.

(** Package api/v1. *)
Module api.
Definition AttesterDuty : gotype := TNamed api_AttesterDuty.
Definition ProposerDuty : gotype := TNamed api_ProposerDuty.
Definition BeaconBlockHeader : gotype := TNamed api_BeaconBlockHeader.
Definition BeaconCommittee : gotype := TNamed api_BeaconCommittee.
Definition BeaconCommitteeSubscription : gotype := TNamed api_BeaconCommitteeSubscription.
Definition Finality : gotype := TNamed api_Finality.
Definition Genesis : gotype := TNamed api_Genesis.
Definition SyncState : gotype := TNamed api_SyncState.
Definition Validator : gotype := TNamed api_Validator.
Definition DepositContract : gotype := TNamed api_DepositContract.
End api.

(** Go's [error]: the values built here are made by errors.New and
    fmt.Errorf and carry their message. *)
Record error : Type := mkError { Error : string }.

Module errors.
Definition New (text : string) : error := mkError text.
End errors.

Module fmt.
(** fmt.Errorf("%s@%s does not support this call", name, address). *)
Definition Errorf_does_not_support (name address : string) : error :=
  mkError (name ++ "@" ++ address ++ " does not support this call").
End fmt.

(* ================================================================== *)
(** ** Package eth2client: the service and provider interfaces

    The interface declarations are not among the sources; what is used of
    them is read off the type assertions and the calls of erroring.go and
    slotduration.go: the name of each provider interface, the method called
    on it, and that method's signature. *)

Module eth2client.

(** The provider interfaces named in the type assertions. *)
Inductive Provider : Type :=
| PrysmAttesterDutiesProvider | PrysmProposerDutiesProvider
| PrysmValidatorBalancesProvider | EpochFromStateIDProvider
| SlotFromStateIDProvider | NodeVersionProvider | SlotDurationProvider
| SlotsPerEpochProvider | FarFutureEpochProvider
| GenesisValidatorsRootProvider | TargetAggregatorsPerCommitteeProvider
| BeaconAttesterDomainProvider | BeaconProposerDomainProvider
| RANDAODomainProvider | DepositDomainProvider
| VoluntaryExitDomainProvider | SelectionProofDomainProvider
| AggregateAndProofDomainProvider | AggregateAttestationProvider
| AggregateAttestationsSubmitter | AttestationDataProvider
| AttestationPoolProvider | AttestationsSubmitter | AttesterDutiesProvider
| BeaconBlockHeadersProvider | BeaconCommitteesProvider
| BeaconBlockProposalProvider | BeaconBlockSubmitter
| BeaconCommitteeSubscriptionsSubmitter | BeaconStateProvider
| EventsProvider | FinalityProvider | ForkProvider | ForkScheduleProvider
| GenesisProvider | NodeSyncingProvider | ProposerDutiesProvider
| SpecProvider | ValidatorBalancesProvider | ValidatorsProvider
| VoluntaryExitSubmitter | DomainProvider | GenesisTimeProvider
| DepositContractProvider | SignedBeaconBlockProvider
| BeaconStateRootProvider.

(** The methods called on them. *)
Inductive Op : Type :=
| OpPrysmAttesterDuties | OpPrysmProposerDuties | OpPrysmValidatorBalances
| OpEpochFromStateID | OpSlotFromStateID | OpNodeVersion | OpSlotDuration
| OpSlotsPerEpoch | OpFarFutureEpoch | OpGenesisValidatorsRoot
| OpTargetAggregatorsPerCommittee | OpBeaconAttesterDomain
| OpBeaconProposerDomain | OpRANDAODomain | OpDepositDomain
| OpVoluntaryExitDomain | OpSelectionProofDomain
| OpAggregateAndProofDomain | OpAggregateAttestation
| OpSubmitAggregateAttestations | OpAttestationData | OpAttestationPool
| OpSubmitAttestations | OpAttesterDuties | OpBeaconBlockHeader
| OpBeaconCommittees | OpBeaconBlockProposal | OpSubmitBeaconBlock
| OpSubmitBeaconCommitteeSubscriptions | OpBeaconState | OpEvents
| OpFinality | OpFork | OpForkSchedule | OpGenesis | OpNodeSyncing
| OpProposerDuties | OpSpec | OpValidatorBalances | OpValidators
| OpValidatorsByPubKey | OpSubmitVoluntaryExit | OpDomain | OpGenesisTime
| OpDepositContract | OpSignedBeaconBlock | OpBeaconStateRoot.

(** The interface that declares each method. *)
Definition provider_of (op : Op) : Provider :=
  match op with
  | OpPrysmAttesterDuties => PrysmAttesterDutiesProvider
  | OpPrysmProposerDuties => PrysmProposerDutiesProvider
  | OpPrysmValidatorBalances => PrysmValidatorBalancesProvider
  | OpEpochFromStateID => EpochFromStateIDProvider
  | OpSlotFromStateID => SlotFromStateIDProvider
  | OpNodeVersion => NodeVersionProvider
  | OpSlotDuration => SlotDurationProvider
  | OpSlotsPerEpoch => SlotsPerEpochProvider
  | OpFarFutureEpoch => FarFutureEpochProvider
  | OpGenesisValidatorsRoot => GenesisValidatorsRootProvider
  | OpTargetAggregatorsPerCommittee => TargetAggregatorsPerCommitteeProvider
  | OpBeaconAttesterDomain => BeaconAttesterDomainProvider
  | OpBeaconProposerDomain => BeaconProposerDomainProvider
  | OpRANDAODomain => RANDAODomainProvider
  | OpDepositDomain => DepositDomainProvider
  | OpVoluntaryExitDomain => VoluntaryExitDomainProvider
  | OpSelectionProofDomain => SelectionProofDomainProvider
  | OpAggregateAndProofDomain => AggregateAndProofDomainProvider
  | OpAggregateAttestation => AggregateAttestationProvider
  | OpSubmitAggregateAttestations => AggregateAttestationsSubmitter
  | OpAttestationData => AttestationDataProvider
  | OpAttestationPool => AttestationPoolProvider
  | OpSubmitAttestations => AttestationsSubmitter
  | OpAttesterDuties => AttesterDutiesProvider
  | OpBeaconBlockHeader => BeaconBlockHeadersProvider
  | OpBeaconCommittees => BeaconCommitteesProvider
  | OpBeaconBlockProposal => BeaconBlockProposalProvider
  | OpSubmitBeaconBlock => BeaconBlockSubmitter
  | OpSubmitBeaconCommitteeSubscriptions => BeaconCommitteeSubscriptionsSubmitter
  | OpBeaconState => BeaconStateProvider
  | OpEvents => EventsProvider
  | OpFinality => FinalityProvider
  | OpFork => ForkProvider
  | OpForkSchedule => ForkScheduleProvider
  | OpGenesis => GenesisProvider
  | OpNodeSyncing => NodeSyncingProvider
  | OpProposerDuties => ProposerDutiesProvider
  | OpSpec => SpecProvider
  | OpValidatorBalances => ValidatorBalancesProvider
  | OpValidators => ValidatorsProvider
  | OpValidatorsByPubKey => ValidatorsProvider
  | OpSubmitVoluntaryExit => VoluntaryExitSubmitter
  | OpDomain => DomainProvider
  | OpGenesisTime => GenesisTimeProvider
  | OpDepositContract => DepositContractProvider
  | OpSignedBeaconBlock => SignedBeaconBlockProvider
  | OpBeaconStateRoot => BeaconStateRootProvider
  end.

(** The parameter types of each method, after the context. *)
Definition arg_types (op : Op) : list gotype :=
  match op with
  | OpPrysmAttesterDuties => [spec.Epoch; TSlice spec.BLSPubKey]
  | OpPrysmProposerDuties => [spec.Epoch; TSlice spec.BLSPubKey]
  | OpPrysmValidatorBalances => [TString; TSlice spec.BLSPubKey]
  | OpEpochFromStateID => [TString]
  | OpSlotFromStateID => [TString]
  | OpNodeVersion => []
  | OpSlotDuration => []
  | OpSlotsPerEpoch => []
  | OpFarFutureEpoch => []
  | OpGenesisValidatorsRoot => []
  | OpTargetAggregatorsPerCommittee => []
  | OpBeaconAttesterDomain => []
  | OpBeaconProposerDomain => []
  | OpRANDAODomain => []
  | OpDepositDomain => []
  | OpVoluntaryExitDomain => []
  | OpSelectionProofDomain => []
  | OpAggregateAndProofDomain => []
  | OpAggregateAttestation => [spec.Slot; spec.Root]
  | OpSubmitAggregateAttestations => [TSlice (TPtr spec.SignedAggregateAndProof)]
  | OpAttestationData => [spec.Slot; spec.CommitteeIndex]
  | OpAttestationPool => [spec.Slot]
  | OpSubmitAttestations => [TSlice (TPtr spec.Attestation)]
  | OpAttesterDuties => [spec.Epoch; TSlice spec.ValidatorIndex]
  | OpBeaconBlockHeader => [TString]
  | OpBeaconCommittees => [TString]
  | OpBeaconBlockProposal => [spec.Slot; spec.BLSSignature; TSlice TByte]
  | OpSubmitBeaconBlock => [TPtr spec.SignedBeaconBlock]
  | OpSubmitBeaconCommitteeSubscriptions => [TSlice (TPtr api.BeaconCommitteeSubscription)]
  | OpBeaconState => [TString]
  | OpEvents => [TSlice TString; TFunc eth2client_EventHandlerFunc]
  | OpFinality => [TString]
  | OpFork => [TString]
  | OpForkSchedule => []
  | OpGenesis => []
  | OpNodeSyncing => []
  | OpProposerDuties => [spec.Epoch; TSlice spec.ValidatorIndex]
  | OpSpec => []
  | OpValidatorBalances => [TString; TSlice spec.ValidatorIndex]
  | OpValidators => [TString; TSlice spec.ValidatorIndex]
  | OpValidatorsByPubKey => [TString; TSlice spec.BLSPubKey]
  | OpSubmitVoluntaryExit => [TPtr spec.SignedVoluntaryExit]
  | OpDomain => [spec.DomainType; spec.Epoch]
  | OpGenesisTime => []
  | OpDepositContract => []
  | OpSignedBeaconBlock => [TString]
  | OpBeaconStateRoot => [TString]
  end.

(** The type of the value each method returns beside its error;
    [TNoValue] for a method that returns an error only. *)
Definition result_type (op : Op) : gotype :=
  match op with
  | OpPrysmAttesterDuties => TSlice (TPtr api.AttesterDuty)
  | OpPrysmProposerDuties => TSlice (TPtr api.ProposerDuty)
  | OpPrysmValidatorBalances => TMap spec.ValidatorIndex spec.Gwei
  | OpEpochFromStateID => spec.Epoch
  | OpSlotFromStateID => spec.Slot
  | OpNodeVersion => TString
  | OpSlotDuration => time.Duration
  | OpSlotsPerEpoch => TUint64
  | OpFarFutureEpoch => spec.Epoch
  | OpGenesisValidatorsRoot => TSlice TByte
  | OpTargetAggregatorsPerCommittee => TUint64
  | OpBeaconAttesterDomain => spec.DomainType
  | OpBeaconProposerDomain => spec.DomainType
  | OpRANDAODomain => spec.DomainType
  | OpDepositDomain => spec.DomainType
  | OpVoluntaryExitDomain => spec.DomainType
  | OpSelectionProofDomain => spec.DomainType
  | OpAggregateAndProofDomain => spec.DomainType
  | OpAggregateAttestation => TPtr spec.Attestation
  | OpSubmitAggregateAttestations => TNoValue
  | OpAttestationData => TPtr spec.AttestationData
  | OpAttestationPool => TSlice (TPtr spec.Attestation)
  | OpSubmitAttestations => TNoValue
  | OpAttesterDuties => TSlice (TPtr api.AttesterDuty)
  | OpBeaconBlockHeader => TPtr api.BeaconBlockHeader
  | OpBeaconCommittees => TSlice (TPtr api.BeaconCommittee)
  | OpBeaconBlockProposal => TPtr spec.BeaconBlock
  | OpSubmitBeaconBlock => TNoValue
  | OpSubmitBeaconCommitteeSubscriptions => TNoValue
  | OpBeaconState => TPtr spec.BeaconState
  | OpEvents => TNoValue
  | OpFinality => TPtr api.Finality
  | OpFork => TPtr spec.Fork
  | OpForkSchedule => TSlice (TPtr spec.Fork)
  | OpGenesis => TPtr api.Genesis
  | OpNodeSyncing => TPtr api.SyncState
  | OpProposerDuties => TSlice (TPtr api.ProposerDuty)
  | OpSpec => TMap TString TInterface
  | OpValidatorBalances => TMap spec.ValidatorIndex spec.Gwei
  | OpValidators => TMap spec.ValidatorIndex (TPtr api.Validator)
  | OpValidatorsByPubKey => TMap spec.ValidatorIndex (TPtr api.Validator)
  | OpSubmitVoluntaryExit => TNoValue
  | OpDomain => spec.Domain
  | OpGenesisTime => time.Time
  | OpDepositContract => TPtr api.DepositContract
  | OpSignedBeaconBlock => TPtr spec.SignedBeaconBlock
  | OpBeaconStateRoot => TPtr spec.Root
  end.

(** *** Effects

    What a call can observe and change: the state of the process-wide
    random source, the wall clock and the beacon nodes behind the
    services. *)
Record Env `{Externals} : Type := mkEnv {
  rng : Source;
  clock : Z;
  backend : Backend
}.
Arguments mkEnv {_} _ _ _.

(** The observable events of a run: a method call on a service (named by
    the service's name and address) and the two operations on the
    roster's reader/writer lock. *)
Inductive Event : Type :=
| EvInvoke (name address : string) (op : Op)
| EvRLock
| EvRUnlock.

(** A computation reads and updates the environment and emits events. *)
Definition M `{Externals} (A : Type) : Type := Env -> A * Env * list Event.

Definition ret `{Externals} {A : Type} (a : A) : M A :=
  fun e => (a, e, []).

Definition bind `{Externals} {A B : Type} (m : M A) (k : A -> M B) : M B :=
  fun e =>
    let '(a, e1, t1) := m e in
    let '(b, e2, t2) := k a e1 in
    (b, e2, t1 ++ t2).

Definition tell `{Externals} (t : list Event) : M unit :=
  fun e => (tt, e, t).

(** What a method returns: its value and its error ([None] is [nil]). *)
Definition result `{Externals} (op : Op) : Type :=
  (denote (result_type op) * option error)%type.

(** A value of interface type eth2client.Service: its name and address,
    the provider interfaces its dynamic type satisfies, and its methods.
    A method is only reachable through an interface that declares it. *)
Record Service `{Externals} : Type := mkService {
  Name : string;
  Address : string;
  implements : Provider -> bool;
  method : forall op : Op, Context -> tuple (arg_types op) -> M (result op)
}.
Arguments mkService {_} _ _ _ _.

(** A method call on a service. *)
Definition call `{Externals} (c : Service) (op : Op) (ctx : Context)
    (a : tuple (arg_types op)) : M (result op) :=
  bind (tell [EvInvoke (Name c) (Address c) op]) (fun _ => method c op ctx a).

End eth2client.

Declare Scope go_scope.
Delimit Scope go_scope with go.
Notation "x <- m ;; k" := (eth2client.bind m (fun x => k))
  (at level 61, m at next level, right associativity) : go_scope.
Notation "m ;;; k" := (eth2client.bind m (fun _ => k))
  (at level 61, right associativity) : go_scope.
Local Open Scope go_scope.

(** Package math/rand: the functions on the process-wide source. *)
Module rand.
Definition Float64 `{Externals} : eth2client.M float64 :=
  fun e =>
    let '(roll, g) := rand_Float64 (eth2client.rng e) in
    (roll, eth2client.mkEnv g (eth2client.clock e) (eth2client.backend e), []).

Definition Seed `{Externals} (seed : Z) : eth2client.M unit :=
  fun e =>
    (tt, eth2client.mkEnv (rand_Seed seed) (eth2client.clock e) (eth2client.backend e), []).
End rand.

(** time.Now().UnixNano(). *)
Definition time_Now_UnixNano `{Externals} : eth2client.M Z :=
  fun e => (eth2client.clock e, e, []).

(* ================================================================== *)
(** ** Package testclients: erroring.go

    A method that returns a value and an error returns a pair; a method
    that returns an error only returns [tt] beside it.  The error [None] is
    Go's [nil]. *)

Module testclients.
Import eth2client.

(** Erroring is an Ethereum 2 client that errors at a given rate. *)
Record Erroring `{Externals} : Type := mkErroring {
  errorRate : float64;
  next : Service
}.
Arguments mkErroring {_} _ _.

(** NewErroring creates a new Ethereum 2 client that errors at a given
    rate.  The [next] argument is an interface value and may be nil
    ([None]); the result is the pointer to the new client, or nil. *)
Definition NewErroring `{Externals} (ctx : Context) (errorRate : float64)
    (next : option Service) : M (option Erroring * option error) :=
  match next with
  | None => ret (None, Some (errors.New "no next service supplied"))
  | Some next =>
    if float64_lt errorRate float64_0
    then ret (None, Some (errors.New "error rate cannot be less than 0"))
    else if float64_gt errorRate float64_1
    then ret (None, Some (errors.New "error rate cannot be more than 1"))
    else
      now <- time_Now_UnixNano ;;
      rand.Seed now ;;;
      ret (Some (mkErroring errorRate next), None)
  end.

(** The methods Name and Address of [*Erroring] format errorRate with
    fmt.Sprintf's %v; nothing here depends on them and they are left out. *)

(** maybeError may return an error depending on the error rate. *)
Definition maybeError `{Externals} (s : Erroring) (ctx : Context)
    : M (option error) :=
  roll <- rand.Float64 ;;
  if float64_lt roll (errorRate s)
  then ret (Some (errors.New "error"))
  else ret None.

(** PrysmAttesterDuties obtains attester duties with prysm-specific parameters. *)
Definition PrysmAttesterDuties `{Externals} (s : Erroring) (ctx : Context)
    (epoch : denote spec.Epoch)
    (validatorPubKeys : denote (TSlice spec.BLSPubKey))
    : M (denote (TSlice (TPtr api.AttesterDuty)) * option error) :=
  err <- maybeError s ctx ;;
  match err with
  | Some err => ret (nil_slice, Some err)
  | None =>
    let isNext := implements (next s) PrysmAttesterDutiesProvider in
    if negb isNext
    then ret (nil_slice, Some (fmt.Errorf_does_not_support (Name (next s)) (Address (next s))))
    else call (next s) OpPrysmAttesterDuties ctx (epoch, validatorPubKeys)
  end.

(** PrysmProposerDuties obtains proposer duties with prysm-specific parameters. *)
Definition PrysmProposerDuties `{Externals} (s : Erroring) (ctx : Context)
    (epoch : denote spec.Epoch)
    (validatorPubKeys : denote (TSlice spec.BLSPubKey))
    : M (denote (TSlice (TPtr api.ProposerDuty)) * option error) :=
  err <- maybeError s ctx ;;
  match err with
  | Some err => ret (nil_slice, Some err)
  | None =>
    let isNext := implements (next s) PrysmProposerDutiesProvider in
    if negb isNext
    then ret (nil_slice, Some (fmt.Errorf_does_not_support (Name (next s)) (Address (next s))))
    else call (next s) OpPrysmProposerDuties ctx (epoch, validatorPubKeys)
  end.

(** PrysmValidatorBalances provides the validator balances for a given state. *)
Definition PrysmValidatorBalances `{Externals} (s : Erroring) (ctx : Context)
    (stateID : denote TString)
    (validatorPubKeys : denote (TSlice spec.BLSPubKey))
    : M (denote (TMap spec.ValidatorIndex spec.Gwei) * option error) :=
  err <- maybeError s ctx ;;
  match err with
  | Some err => ret (nil_map, Some err)
  | None =>
    let isNext := implements (next s) PrysmValidatorBalancesProvider in
    if negb isNext
    then ret (nil_map, Some (fmt.Errorf_does_not_support (Name (next s)) (Address (next s))))
    else call (next s) OpPrysmValidatorBalances ctx (stateID, validatorPubKeys)
  end.

(** EpochFromStateID converts a state ID to its epoch. *)
Definition EpochFromStateID `{Externals} (s : Erroring) (ctx : Context)
    (stateID : denote TString)
    : M (denote spec.Epoch * option error) :=
  err <- maybeError s ctx ;;
  match err with
  | Some err => ret (0%N, Some err)
  | None =>
    let isNext := implements (next s) EpochFromStateIDProvider in
    if negb isNext
    then ret (0%N, Some (fmt.Errorf_does_not_support (Name (next s)) (Address (next s))))
    else call (next s) OpEpochFromStateID ctx stateID
  end.

(** SlotFromStateID converts a state ID to its slot. *)
Definition SlotFromStateID `{Externals} (s : Erroring) (ctx : Context)
    (stateID : denote TString)
    : M (denote spec.Slot * option error) :=
  err <- maybeError s ctx ;;
  match err with
  | Some err => ret (0%N, Some err)
  | None =>
    let isNext := implements (next s) SlotFromStateIDProvider in
    if negb isNext
    then ret (0%N, Some (fmt.Errorf_does_not_support (Name (next s)) (Address (next s))))
    else call (next s) OpSlotFromStateID ctx stateID
  end.

(** NodeVersion returns a free-text string with the node version. *)
Definition NodeVersion `{Externals} (s : Erroring) (ctx : Context)
    : M (denote TString * option error) :=
  err <- maybeError s ctx ;;
  match err with
  | Some err => ret (EmptyString, Some err)
  | None =>
    let isNext := implements (next s) NodeVersionProvider in
    if negb isNext
    then ret (EmptyString, Some (fmt.Errorf_does_not_support (Name (next s)) (Address (next s))))
    else call (next s) OpNodeVersion ctx tt
  end.

(** SlotDuration provides the duration of a slot of the chain. *)
Definition SlotDuration `{Externals} (s : Erroring) (ctx : Context)
    : M (denote time.Duration * option error) :=
  err <- maybeError s ctx ;;
  match err with
  | Some err => ret (0%Z, Some err)
  | None =>
    let isNext := implements (next s) SlotDurationProvider in
    if negb isNext
    then ret (0%Z, Some (fmt.Errorf_does_not_support (Name (next s)) (Address (next s))))
    else call (next s) OpSlotDuration ctx tt
  end.

(** SlotsPerEpoch provides the slots per epoch of the chain. *)
Definition SlotsPerEpoch `{Externals} (s : Erroring) (ctx : Context)
    : M (denote TUint64 * option error) :=
  err <- maybeError s ctx ;;
  match err with
  | Some err => ret (0%N, Some err)
  | None =>
    let isNext := implements (next s) SlotsPerEpochProvider in
    if negb isNext
    then ret (0%N, Some (fmt.Errorf_does_not_support (Name (next s)) (Address (next s))))
    else call (next s) OpSlotsPerEpoch ctx tt
  end.

(** FarFutureEpoch provides the far future epoch of the chain. *)
Definition FarFutureEpoch `{Externals} (s : Erroring) (ctx : Context)
    : M (denote spec.Epoch * option error) :=
  err <- maybeError s ctx ;;
  match err with
  | Some err => ret (0%N, Some err)
  | None =>
    let isNext := implements (next s) FarFutureEpochProvider in
    if negb isNext
    then ret (0%N, Some (fmt.Errorf_does_not_support (Name (next s)) (Address (next s))))
    else call (next s) OpFarFutureEpoch ctx tt
  end.

(** GenesisValidatorsRoot provides the genesis validators root of the chain. *)
Definition GenesisValidatorsRoot `{Externals} (s : Erroring) (ctx : Context)
    : M (denote (TSlice TByte) * option error) :=
  err <- maybeError s ctx ;;
  match err with
  | Some err => ret (nil_slice, Some err)
  | None =>
    let isNext := implements (next s) GenesisValidatorsRootProvider in
    if negb isNext
    then ret (nil_slice, Some (fmt.Errorf_does_not_support (Name (next s)) (Address (next s))))
    else call (next s) OpGenesisValidatorsRoot ctx tt
  end.

(** TargetAggregatorsPerCommittee provides the target number of aggregators for each attestation committee. *)
Definition TargetAggregatorsPerCommittee `{Externals} (s : Erroring) (ctx : Context)
    : M (denote TUint64 * option error) :=
  err <- maybeError s ctx ;;
  match err with
  | Some err => ret (0%N, Some err)
  | None =>
    let isNext := implements (next s) TargetAggregatorsPerCommitteeProvider in
    if negb isNext
    then ret (0%N, Some (fmt.Errorf_does_not_support (Name (next s)) (Address (next s))))
    else call (next s) OpTargetAggregatorsPerCommittee ctx tt
  end.

(** BeaconAttesterDomain provides the beacon attester domain. *)
Definition BeaconAttesterDomain `{Externals} (s : Erroring) (ctx : Context)
    : M (denote spec.DomainType * option error) :=
  err <- maybeError s ctx ;;
  match err with
  | Some err => ret (spec.DomainType_literal, Some err)
  | None =>
    let isNext := implements (next s) BeaconAttesterDomainProvider in
    if negb isNext
    then ret (spec.DomainType_literal, Some (fmt.Errorf_does_not_support (Name (next s)) (Address (next s))))
    else call (next s) OpBeaconAttesterDomain ctx tt
  end.

(** BeaconProposerDomain provides the beacon proposer domain. *)
Definition BeaconProposerDomain `{Externals} (s : Erroring) (ctx : Context)
    : M (denote spec.DomainType * option error) :=
  err <- maybeError s ctx ;;
  match err with
  | Some err => ret (spec.DomainType_literal, Some err)
  | None =>
    let isNext := implements (next s) BeaconProposerDomainProvider in
    if negb isNext
    then ret (spec.DomainType_literal, Some (fmt.Errorf_does_not_support (Name (next s)) (Address (next s))))
    else call (next s) OpBeaconProposerDomain ctx tt
  end.

(** RANDAODomain provides the RANDAO domain. *)
Definition RANDAODomain `{Externals} (s : Erroring) (ctx : Context)
    : M (denote spec.DomainType * option error) :=
  err <- maybeError s ctx ;;
  match err with
  | Some err => ret (spec.DomainType_literal, Some err)
  | None =>
    let isNext := implements (next s) RANDAODomainProvider in
    if negb isNext
    then ret (spec.DomainType_literal, Some (fmt.Errorf_does_not_support (Name (next s)) (Address (next s))))
    else call (next s) OpRANDAODomain ctx tt
  end.

(** DepositDomain provides the deposit domain. *)
Definition DepositDomain `{Externals} (s : Erroring) (ctx : Context)
    : M (denote spec.DomainType * option error) :=
  err <- maybeError s ctx ;;
  match err with
  | Some err => ret (spec.DomainType_literal, Some err)
  | None =>
    let isNext := implements (next s) DepositDomainProvider in
    if negb isNext
    then ret (spec.DomainType_literal, Some (fmt.Errorf_does_not_support (Name (next s)) (Address (next s))))
    else call (next s) OpDepositDomain ctx tt
  end.

(** VoluntaryExitDomain provides the voluntary exit domain. *)
Definition VoluntaryExitDomain `{Externals} (s : Erroring) (ctx : Context)
    : M (denote spec.DomainType * option error) :=
  err <- maybeError s ctx ;;
  match err with
  | Some err => ret (spec.DomainType_literal, Some err)
  | None =>
    let isNext := implements (next s) VoluntaryExitDomainProvider in
    if negb isNext
    then ret (spec.DomainType_literal, Some (fmt.Errorf_does_not_support (Name (next s)) (Address (next s))))
    else call (next s) OpVoluntaryExitDomain ctx tt
  end.

(** SelectionProofDomain provides the selection proof domain. *)
Definition SelectionProofDomain `{Externals} (s : Erroring) (ctx : Context)
    : M (denote spec.DomainType * option error) :=
  err <- maybeError s ctx ;;
  match err with
  | Some err => ret (spec.DomainType_literal, Some err)
  | None =>
    let isNext := implements (next s) SelectionProofDomainProvider in
    if negb isNext
    then ret (spec.DomainType_literal, Some (fmt.Errorf_does_not_support (Name (next s)) (Address (next s))))
    else call (next s) OpSelectionProofDomain ctx tt
  end.

(** AggregateAndProofDomain provides the aggregate and proof domain. *)
Definition AggregateAndProofDomain `{Externals} (s : Erroring) (ctx : Context)
    : M (denote spec.DomainType * option error) :=
  err <- maybeError s ctx ;;
  match err with
  | Some err => ret (spec.DomainType_literal, Some err)
  | None =>
    let isNext := implements (next s) AggregateAndProofDomainProvider in
    if negb isNext
    then ret (spec.DomainType_literal, Some (fmt.Errorf_does_not_support (Name (next s)) (Address (next s))))
    else call (next s) OpAggregateAndProofDomain ctx tt
  end.

(** AggregateAttestation fetches the aggregate attestation given an attestation. *)
Definition AggregateAttestation `{Externals} (s : Erroring) (ctx : Context)
    (slot : denote spec.Slot)
    (attestationDataRoot : denote spec.Root)
    : M (denote (TPtr spec.Attestation) * option error) :=
  err <- maybeError s ctx ;;
  match err with
  | Some err => ret (nil_pointer, Some err)
  | None =>
    let isNext := implements (next s) AggregateAttestationProvider in
    if negb isNext
    then ret (nil_pointer, Some (fmt.Errorf_does_not_support (Name (next s)) (Address (next s))))
    else call (next s) OpAggregateAttestation ctx (slot, attestationDataRoot)
  end.

(** SubmitAggregateAttestations submits aggregate attestations. *)
Definition SubmitAggregateAttestations `{Externals} (s : Erroring) (ctx : Context)
    (aggregateAndProofs : denote (TSlice (TPtr spec.SignedAggregateAndProof)))
    : M (denote TNoValue * option error) :=
  err <- maybeError s ctx ;;
  match err with
  | Some err => ret (tt, Some err)
  | None =>
    let isNext := implements (next s) AggregateAttestationsSubmitter in
    if negb isNext
    then ret (tt, Some (fmt.Errorf_does_not_support (Name (next s)) (Address (next s))))
    else call (next s) OpSubmitAggregateAttestations ctx aggregateAndProofs
  end.

(** AttestationData fetches the attestation data for the given slot and committee index. *)
Definition AttestationData `{Externals} (s : Erroring) (ctx : Context)
    (slot : denote spec.Slot)
    (committeeIndex : denote spec.CommitteeIndex)
    : M (denote (TPtr spec.AttestationData) * option error) :=
  err <- maybeError s ctx ;;
  match err with
  | Some err => ret (nil_pointer, Some err)
  | None =>
    let isNext := implements (next s) AttestationDataProvider in
    if negb isNext
    then ret (nil_pointer, Some (fmt.Errorf_does_not_support (Name (next s)) (Address (next s))))
    else call (next s) OpAttestationData ctx (slot, committeeIndex)
  end.

(** AttestationPool fetches the attestation pool for the given slot. *)
Definition AttestationPool `{Externals} (s : Erroring) (ctx : Context)
    (slot : denote spec.Slot)
    : M (denote (TSlice (TPtr spec.Attestation)) * option error) :=
  err <- maybeError s ctx ;;
  match err with
  | Some err => ret (nil_slice, Some err)
  | None =>
    let isNext := implements (next s) AttestationPoolProvider in
    if negb isNext
    then ret (nil_slice, Some (fmt.Errorf_does_not_support (Name (next s)) (Address (next s))))
    else call (next s) OpAttestationPool ctx slot
  end.

(** SubmitAttestations submits attestations. *)
Definition SubmitAttestations `{Externals} (s : Erroring) (ctx : Context)
    (attestations : denote (TSlice (TPtr spec.Attestation)))
    : M (denote TNoValue * option error) :=
  err <- maybeError s ctx ;;
  match err with
  | Some err => ret (tt, Some err)
  | None =>
    let isNext := implements (next s) AttestationsSubmitter in
    if negb isNext
    then ret (tt, Some (fmt.Errorf_does_not_support (Name (next s)) (Address (next s))))
    else call (next s) OpSubmitAttestations ctx attestations
  end.

(** AttesterDuties obtains attester duties. *)
Definition AttesterDuties `{Externals} (s : Erroring) (ctx : Context)
    (epoch : denote spec.Epoch)
    (validatorIndices : denote (TSlice spec.ValidatorIndex))
    : M (denote (TSlice (TPtr api.AttesterDuty)) * option error) :=
  err <- maybeError s ctx ;;
  match err with
  | Some err => ret (nil_slice, Some err)
  | None =>
    let isNext := implements (next s) AttesterDutiesProvider in
    if negb isNext
    then ret (nil_slice, Some (fmt.Errorf_does_not_support (Name (next s)) (Address (next s))))
    else call (next s) OpAttesterDuties ctx (epoch, validatorIndices)
  end.

(** BeaconBlockHeader provides the block header of a given block ID. *)
Definition BeaconBlockHeader `{Externals} (s : Erroring) (ctx : Context)
    (blockID : denote TString)
    : M (denote (TPtr api.BeaconBlockHeader) * option error) :=
  err <- maybeError s ctx ;;
  match err with
  | Some err => ret (nil_pointer, Some err)
  | None =>
    let isNext := implements (next s) BeaconBlockHeadersProvider in
    if negb isNext
    then ret (nil_pointer, Some (fmt.Errorf_does_not_support (Name (next s)) (Address (next s))))
    else call (next s) OpBeaconBlockHeader ctx blockID
  end.

(** BeaconCommittees fetches all beacon committees for the epoch at the given state. *)
Definition BeaconCommittees `{Externals} (s : Erroring) (ctx : Context)
    (stateID : denote TString)
    : M (denote (TSlice (TPtr api.BeaconCommittee)) * option error) :=
  err <- maybeError s ctx ;;
  match err with
  | Some err => ret (nil_slice, Some err)
  | None =>
    let isNext := implements (next s) BeaconCommitteesProvider in
    if negb isNext
    then ret (nil_slice, Some (fmt.Errorf_does_not_support (Name (next s)) (Address (next s))))
    else call (next s) OpBeaconCommittees ctx stateID
  end.

(** BeaconBlockProposal fetches a proposed beacon block for signing. *)
Definition BeaconBlockProposal `{Externals} (s : Erroring) (ctx : Context)
    (slot : denote spec.Slot)
    (randaoReveal : denote spec.BLSSignature)
    (graffiti : denote (TSlice TByte))
    : M (denote (TPtr spec.BeaconBlock) * option error) :=
  err <- maybeError s ctx ;;
  match err with
  | Some err => ret (nil_pointer, Some err)
  | None =>
    let isNext := implements (next s) BeaconBlockProposalProvider in
    if negb isNext
    then ret (nil_pointer, Some (fmt.Errorf_does_not_support (Name (next s)) (Address (next s))))
    else call (next s) OpBeaconBlockProposal ctx (slot, (randaoReveal, graffiti))
  end.

(** SubmitBeaconBlock submits a beacon block. *)
Definition SubmitBeaconBlock `{Externals} (s : Erroring) (ctx : Context)
    (block : denote (TPtr spec.SignedBeaconBlock))
    : M (denote TNoValue * option error) :=
  err <- maybeError s ctx ;;
  match err with
  | Some err => ret (tt, Some err)
  | None =>
    let isNext := implements (next s) BeaconBlockSubmitter in
    if negb isNext
    then ret (tt, Some (fmt.Errorf_does_not_support (Name (next s)) (Address (next s))))
    else call (next s) OpSubmitBeaconBlock ctx block
  end.

(** SubmitBeaconCommitteeSubscriptions subscribes to beacon committees. *)
Definition SubmitBeaconCommitteeSubscriptions `{Externals} (s : Erroring) (ctx : Context)
    (subscriptions : denote (TSlice (TPtr api.BeaconCommitteeSubscription)))
    : M (denote TNoValue * option error) :=
  err <- maybeError s ctx ;;
  match err with
  | Some err => ret (tt, Some err)
  | None =>
    let isNext := implements (next s) BeaconCommitteeSubscriptionsSubmitter in
    if negb isNext
    then ret (tt, Some (fmt.Errorf_does_not_support (Name (next s)) (Address (next s))))
    else call (next s) OpSubmitBeaconCommitteeSubscriptions ctx subscriptions
  end.

(** BeaconState fetches a beacon state. *)
Definition BeaconState `{Externals} (s : Erroring) (ctx : Context)
    (stateID : denote TString)
    : M (denote (TPtr spec.BeaconState) * option error) :=
  err <- maybeError s ctx ;;
  match err with
  | Some err => ret (nil_pointer, Some err)
  | None =>
    let isNext := implements (next s) BeaconStateProvider in
    if negb isNext
    then ret (nil_pointer, Some (fmt.Errorf_does_not_support (Name (next s)) (Address (next s))))
    else call (next s) OpBeaconState ctx stateID
  end.

(** Events feeds requested events with the given topics to the supplied handler. *)
Definition Events `{Externals} (s : Erroring) (ctx : Context)
    (topics : denote (TSlice TString))
    (handler : denote (TFunc eth2client_EventHandlerFunc))
    : M (denote TNoValue * option error) :=
  err <- maybeError s ctx ;;
  match err with
  | Some err => ret (tt, Some err)
  | None =>
    let isNext := implements (next s) EventsProvider in
    if negb isNext
    then ret (tt, Some (fmt.Errorf_does_not_support (Name (next s)) (Address (next s))))
    else call (next s) OpEvents ctx (topics, handler)
  end.

(** Finality provides the finality given a state ID. *)
Definition Finality `{Externals} (s : Erroring) (ctx : Context)
    (stateID : denote TString)
    : M (denote (TPtr api.Finality) * option error) :=
  err <- maybeError s ctx ;;
  match err with
  | Some err => ret (nil_pointer, Some err)
  | None =>
    let isNext := implements (next s) FinalityProvider in
    if negb isNext
    then ret (nil_pointer, Some (fmt.Errorf_does_not_support (Name (next s)) (Address (next s))))
    else call (next s) OpFinality ctx stateID
  end.

(** Fork fetches fork information for the given state. *)
Definition Fork `{Externals} (s : Erroring) (ctx : Context)
    (stateID : denote TString)
    : M (denote (TPtr spec.Fork) * option error) :=
  err <- maybeError s ctx ;;
  match err with
  | Some err => ret (nil_pointer, Some err)
  | None =>
    let isNext := implements (next s) ForkProvider in
    if negb isNext
    then ret (nil_pointer, Some (fmt.Errorf_does_not_support (Name (next s)) (Address (next s))))
    else call (next s) OpFork ctx stateID
  end.

(** ForkSchedule provides details of past and future changes in the chain's fork version. *)
Definition ForkSchedule `{Externals} (s : Erroring) (ctx : Context)
    : M (denote (TSlice (TPtr spec.Fork)) * option error) :=
  err <- maybeError s ctx ;;
  match err with
  | Some err => ret (nil_slice, Some err)
  | None =>
    let isNext := implements (next s) ForkScheduleProvider in
    if negb isNext
    then ret (nil_slice, Some (fmt.Errorf_does_not_support (Name (next s)) (Address (next s))))
    else call (next s) OpForkSchedule ctx tt
  end.

(** Genesis fetches genesis information for the chain. *)
Definition Genesis `{Externals} (s : Erroring) (ctx : Context)
    : M (denote (TPtr api.Genesis) * option error) :=
  err <- maybeError s ctx ;;
  match err with
  | Some err => ret (nil_pointer, Some err)
  | None =>
    let isNext := implements (next s) GenesisProvider in
    if negb isNext
    then ret (nil_pointer, Some (fmt.Errorf_does_not_support (Name (next s)) (Address (next s))))
    else call (next s) OpGenesis ctx tt
  end.

(** NodeSyncing provides the state of the node's synchronization with the chain. *)
Definition NodeSyncing `{Externals} (s : Erroring) (ctx : Context)
    : M (denote (TPtr api.SyncState) * option error) :=
  err <- maybeError s ctx ;;
  match err with
  | Some err => ret (nil_pointer, Some err)
  | None =>
    let isNext := implements (next s) NodeSyncingProvider in
    if negb isNext
    then ret (nil_pointer, Some (fmt.Errorf_does_not_support (Name (next s)) (Address (next s))))
    else call (next s) OpNodeSyncing ctx tt
  end.

(** ProposerDuties obtains proposer duties for the given epoch. *)
Definition ProposerDuties `{Externals} (s : Erroring) (ctx : Context)
    (epoch : denote spec.Epoch)
    (validatorIndices : denote (TSlice spec.ValidatorIndex))
    : M (denote (TSlice (TPtr api.ProposerDuty)) * option error) :=
  err <- maybeError s ctx ;;
  match err with
  | Some err => ret (nil_slice, Some err)
  | None =>
    let isNext := implements (next s) ProposerDutiesProvider in
    if negb isNext
    then ret (nil_slice, Some (fmt.Errorf_does_not_support (Name (next s)) (Address (next s))))
    else call (next s) OpProposerDuties ctx (epoch, validatorIndices)
  end.

(** Spec provides the spec information of the chain. *)
Definition Spec `{Externals} (s : Erroring) (ctx : Context)
    : M (denote (TMap TString TInterface) * option error) :=
  err <- maybeError s ctx ;;
  match err with
  | Some err => ret (nil_map, Some err)
  | None =>
    let isNext := implements (next s) SpecProvider in
    if negb isNext
    then ret (nil_map, Some (fmt.Errorf_does_not_support (Name (next s)) (Address (next s))))
    else call (next s) OpSpec ctx tt
  end.

(** ValidatorBalances provides the validator balances for a given state. *)
Definition ValidatorBalances `{Externals} (s : Erroring) (ctx : Context)
    (stateID : denote TString)
    (validatorIndices : denote (TSlice spec.ValidatorIndex))
    : M (denote (TMap spec.ValidatorIndex spec.Gwei) * option error) :=
  err <- maybeError s ctx ;;
  match err with
  | Some err => ret (nil_map, Some err)
  | None =>
    let isNext := implements (next s) ValidatorBalancesProvider in
    if negb isNext
    then ret (nil_map, Some (fmt.Errorf_does_not_support (Name (next s)) (Address (next s))))
    else call (next s) OpValidatorBalances ctx (stateID, validatorIndices)
  end.

(** Validators provides the validators, with their balance and status, for a given state. *)
Definition Validators `{Externals} (s : Erroring) (ctx : Context)
    (stateID : denote TString)
    (validatorIndices : denote (TSlice spec.ValidatorIndex))
    : M (denote (TMap spec.ValidatorIndex (TPtr api.Validator)) * option error) :=
  err <- maybeError s ctx ;;
  match err with
  | Some err => ret (nil_map, Some err)
  | None =>
    let isNext := implements (next s) ValidatorsProvider in
    if negb isNext
    then ret (nil_map, Some (fmt.Errorf_does_not_support (Name (next s)) (Address (next s))))
    else call (next s) OpValidators ctx (stateID, validatorIndices)
  end.

(** ValidatorsByPubKey provides the validators, with their balance and status, for a given state. *)
Definition ValidatorsByPubKey `{Externals} (s : Erroring) (ctx : Context)
    (stateID : denote TString)
    (validatorPubKeys : denote (TSlice spec.BLSPubKey))
    : M (denote (TMap spec.ValidatorIndex (TPtr api.Validator)) * option error) :=
  err <- maybeError s ctx ;;
  match err with
  | Some err => ret (nil_map, Some err)
  | None =>
    let isNext := implements (next s) ValidatorsProvider in
    if negb isNext
    then ret (nil_map, Some (fmt.Errorf_does_not_support (Name (next s)) (Address (next s))))
    else call (next s) OpValidatorsByPubKey ctx (stateID, validatorPubKeys)
  end.

(** SubmitVoluntaryExit submits a voluntary exit. *)
Definition SubmitVoluntaryExit `{Externals} (s : Erroring) (ctx : Context)
    (voluntaryExit : denote (TPtr spec.SignedVoluntaryExit))
    : M (denote TNoValue * option error) :=
  err <- maybeError s ctx ;;
  match err with
  | Some err => ret (tt, Some err)
  | None =>
    let isNext := implements (next s) VoluntaryExitSubmitter in
    if negb isNext
    then ret (tt, Some (fmt.Errorf_does_not_support (Name (next s)) (Address (next s))))
    else call (next s) OpSubmitVoluntaryExit ctx voluntaryExit
  end.

(** Domain provides a domain for a given domain type at a given epoch. *)
Definition Domain `{Externals} (s : Erroring) (ctx : Context)
    (domainType : denote spec.DomainType)
    (epoch : denote spec.Epoch)
    : M (denote spec.Domain * option error) :=
  err <- maybeError s ctx ;;
  match err with
  | Some err => ret (spec.Domain_literal, Some err)
  | None =>
    let isNext := implements (next s) DomainProvider in
    if negb isNext
    then ret (spec.Domain_literal, Some (fmt.Errorf_does_not_support (Name (next s)) (Address (next s))))
    else call (next s) OpDomain ctx (domainType, epoch)
  end.

(** GenesisTime provides the genesis time of the chain. *)
Definition GenesisTime `{Externals} (s : Erroring) (ctx : Context)
    : M (denote time.Time * option error) :=
  err <- maybeError s ctx ;;
  match err with
  | Some err => ret (time.Time_literal, Some err)
  | None =>
    let isNext := implements (next s) GenesisTimeProvider in
    if negb isNext
    then ret (time.Time_literal, Some (fmt.Errorf_does_not_support (Name (next s)) (Address (next s))))
    else call (next s) OpGenesisTime ctx tt
  end.

(** DepositContract provides details of the Ethereum 1 deposit contract for the chain. *)
Definition DepositContract `{Externals} (s : Erroring) (ctx : Context)
    : M (denote (TPtr api.DepositContract) * option error) :=
  err <- maybeError s ctx ;;
  match err with
  | Some err => ret (nil_pointer, Some err)
  | None =>
    let isNext := implements (next s) DepositContractProvider in
    if negb isNext
    then ret (nil_pointer, Some (fmt.Errorf_does_not_support (Name (next s)) (Address (next s))))
    else call (next s) OpDepositContract ctx tt
  end.

(** SignedBeaconBlock fetches a signed beacon block given a block ID. *)
Definition SignedBeaconBlock `{Externals} (s : Erroring) (ctx : Context)
    (blockID : denote TString)
    : M (denote (TPtr spec.SignedBeaconBlock) * option error) :=
  err <- maybeError s ctx ;;
  match err with
  | Some err => ret (nil_pointer, Some err)
  | None =>
    let isNext := implements (next s) SignedBeaconBlockProvider in
    if negb isNext
    then ret (nil_pointer, Some (fmt.Errorf_does_not_support (Name (next s)) (Address (next s))))
    else call (next s) OpSignedBeaconBlock ctx blockID
  end.

(** BeaconStateRoot fetches a beacon state root given a state ID. *)
Definition BeaconStateRoot `{Externals} (s : Erroring) (ctx : Context)
    (stateID : denote TString)
    : M (denote (TPtr spec.Root) * option error) :=
  err <- maybeError s ctx ;;
  match err with
  | Some err => ret (nil_pointer, Some err)
  | None =>
    let isNext := implements (next s) BeaconStateRootProvider in
    if negb isNext
    then ret (nil_pointer, Some (fmt.Errorf_does_not_support (Name (next s)) (Address (next s))))
    else call (next s) OpBeaconStateRoot ctx stateID
  end.

(** The method set of [*Erroring], by method. *)
Definition Erroring_method `{Externals} (s : Erroring) (op : Op) (ctx : Context)
    : tuple (arg_types op) -> M (result op) :=
  match op as o return tuple (arg_types o) -> M (result o) with
  | OpPrysmAttesterDuties => fun a => PrysmAttesterDuties s ctx (fst a) (snd a)
  | OpPrysmProposerDuties => fun a => PrysmProposerDuties s ctx (fst a) (snd a)
  | OpPrysmValidatorBalances => fun a => PrysmValidatorBalances s ctx (fst a) (snd a)
  | OpEpochFromStateID => fun a => EpochFromStateID s ctx a
  | OpSlotFromStateID => fun a => SlotFromStateID s ctx a
  | OpNodeVersion => fun a => NodeVersion s ctx
  | OpSlotDuration => fun a => SlotDuration s ctx
  | OpSlotsPerEpoch => fun a => SlotsPerEpoch s ctx
  | OpFarFutureEpoch => fun a => FarFutureEpoch s ctx
  | OpGenesisValidatorsRoot => fun a => GenesisValidatorsRoot s ctx
  | OpTargetAggregatorsPerCommittee => fun a => TargetAggregatorsPerCommittee s ctx
  | OpBeaconAttesterDomain => fun a => BeaconAttesterDomain s ctx
  | OpBeaconProposerDomain => fun a => BeaconProposerDomain s ctx
  | OpRANDAODomain => fun a => RANDAODomain s ctx
  | OpDepositDomain => fun a => DepositDomain s ctx
  | OpVoluntaryExitDomain => fun a => VoluntaryExitDomain s ctx
  | OpSelectionProofDomain => fun a => SelectionProofDomain s ctx
  | OpAggregateAndProofDomain => fun a => AggregateAndProofDomain s ctx
  | OpAggregateAttestation => fun a => AggregateAttestation s ctx (fst a) (snd a)
  | OpSubmitAggregateAttestations => fun a => SubmitAggregateAttestations s ctx a
  | OpAttestationData => fun a => AttestationData s ctx (fst a) (snd a)
  | OpAttestationPool => fun a => AttestationPool s ctx a
  | OpSubmitAttestations => fun a => SubmitAttestations s ctx a
  | OpAttesterDuties => fun a => AttesterDuties s ctx (fst a) (snd a)
  | OpBeaconBlockHeader => fun a => BeaconBlockHeader s ctx a
  | OpBeaconCommittees => fun a => BeaconCommittees s ctx a
  | OpBeaconBlockProposal => fun a => BeaconBlockProposal s ctx (fst a) (fst (snd a)) (snd (snd a))
  | OpSubmitBeaconBlock => fun a => SubmitBeaconBlock s ctx a
  | OpSubmitBeaconCommitteeSubscriptions => fun a => SubmitBeaconCommitteeSubscriptions s ctx a
  | OpBeaconState => fun a => BeaconState s ctx a
  | OpEvents => fun a => Events s ctx (fst a) (snd a)
  | OpFinality => fun a => Finality s ctx a
  | OpFork => fun a => Fork s ctx a
  | OpForkSchedule => fun a => ForkSchedule s ctx
  | OpGenesis => fun a => Genesis s ctx
  | OpNodeSyncing => fun a => NodeSyncing s ctx
  | OpProposerDuties => fun a => ProposerDuties s ctx (fst a) (snd a)
  | OpSpec => fun a => Spec s ctx
  | OpValidatorBalances => fun a => ValidatorBalances s ctx (fst a) (snd a)
  | OpValidators => fun a => Validators s ctx (fst a) (snd a)
  | OpValidatorsByPubKey => fun a => ValidatorsByPubKey s ctx (fst a) (snd a)
  | OpSubmitVoluntaryExit => fun a => SubmitVoluntaryExit s ctx a
  | OpDomain => fun a => Domain s ctx (fst a) (snd a)
  | OpGenesisTime => fun a => GenesisTime s ctx
  | OpDepositContract => fun a => DepositContract s ctx
  | OpSignedBeaconBlock => fun a => SignedBeaconBlock s ctx a
  | OpBeaconStateRoot => fun a => BeaconStateRoot s ctx a
  end.

End testclients.

(* ================================================================== *)
(** ** Package multi: slotduration.go *)

Module multi.
Import eth2client.

(** How a Go call ends: it returns, or it panics. *)
Inductive outcome (A : Type) : Type :=
| Returned (a : A)
| Panicked.
Arguments Panicked {A}.

(** The multi-client service: the roster of active clients ([clientMu],
    the reader/writer lock that guards it, has no state of its own here;
    its operations are events). *)
Record Service `{Externals} : Type := mkService {
  activeClients : list eth2client.Service
}.
Arguments mkService {_} _.

Definition RLock `{Externals} : M unit := tell [EvRLock].
Definition RUnlock `{Externals} : M unit := tell [EvRUnlock].

(** [defer d] followed by [body]: [d] runs when the function ends, after
    the returned values have been computed, and also when it panics. *)
Definition defer `{Externals} {A : Type} (d : M unit) (body : M (outcome A))
    : M (outcome A) :=
  r <- body ;;
  d ;;;
  ret r.

(** SlotDuration provides the duration of a slot of the chain. *)
Definition SlotDuration `{Externals} (s : Service) (ctx : Context)
    : M (outcome (denote time.Duration * option error)) :=
  RLock ;;;
  defer RUnlock
    (if Nat.eqb (List.length (activeClients s)) 0
     then ret (Returned (0%Z, Some (errors.New "no active Ethereum 2 clients")))
     else
       (* Slot duration is static so no need to worry about failover. *)
       match nth_error (activeClients s) 0 with
       | None => ret Panicked
       | Some client =>
         (* the unchecked assertion client.(SlotDurationProvider) *)
         if implements client SlotDurationProvider
         then r <- call client OpSlotDuration ctx tt ;; ret (Returned r)
         else ret Panicked
       end).

End multi.

(* ================================================================== *)
(** ** The behaviour the specification describes *)

Module policy.
Import eth2client.

(** The static-value policy in the specification's words: query the first
    capable endpoint in roster order; on error fall over to the next
    capable endpoint; exhausting the list yields a "no active clients"
    failure. *)
Fixpoint static_value `{Externals} (roster : list Service) (ctx : Context)
    : M (denote time.Duration * option error) :=
  match roster with
  | [] => ret (0%Z, Some (errors.New "no active Ethereum 2 clients"))
  | c :: rest =>
    if implements c SlotDurationProvider
    then
      r <- call c OpSlotDuration ctx tt ;;
      match snd r with
      | None => ret r
      | Some _ => static_value rest ctx
      end
    else static_value rest ctx
  end.

(** The lock rule in the specification's words: no endpoint call is made
    while the roster lock is held.  [held] counts the read locks taken and
    not yet released. *)
Fixpoint no_call_while_locked (held : nat) (t : list Event) : bool :=
  match t with
  | [] => true
  | EvRLock :: t' => no_call_while_locked (S held) t'
  | EvRUnlock :: t' => no_call_while_locked (Nat.pred held) t'
  | EvInvoke _ _ _ :: t' =>
    match held with
    | O => no_call_while_locked held t'
    | S _ => false
    end
  end.

(** The static-value claim on the code: the multi-client SlotDuration
    returns what the policy returns on the active roster. *)
Definition follows_static_value `{Externals} (s : multi.Service)
    (ctx : Context) (e : Env) : Prop :=
  fst (fst (multi.SlotDuration s ctx e)) =
  multi.Returned (fst (fst (static_value (multi.activeClients s) ctx e))).

End policy.

Module router.

Section Corroboration.
Variable V : Type.
Variable V_eq_dec : forall x y : V, {x = y} + {x <> y}.

(** Modelled from the spec: the Result of a corroborated best-effort
    operation.  No code of the corroboration policy is among the
    sources; the specification gives it as majority agreement among the
    values returned by the endpoints of the active-and-capable set. *)
Inductive Result : Type :=
| Accepted (v : V)
| ConsistencyFailure.

(** Modelled from the spec: the number of endpoints that returned [v]. *)
Definition agreeing (v : V) (returned : list V) : nat :=
  count_occ V_eq_dec returned v.

(** Modelled from the spec: strict majority, more than half of the
    endpoints of the set. *)
Definition strict_majority (returned : list V) (v : V) : bool :=
  Nat.ltb (List.length returned) (2 * agreeing v returned).

(** Modelled from the spec: majority agreement, rejecting with an
    inconsistency error if no majority exists.  [returned] holds the
    value of each endpoint of the set, in roster order. *)
Definition corroborate (returned : list V) : Result :=
  match find (strict_majority returned) returned with
  | Some v => Accepted v
  | None => ConsistencyFailure
  end.
End Corroboration.

End router.

(* ================================================================== *)
(** ** A concrete world for the examples *)

Module demo.
Import eth2client.

(** Three rolls in turn: 0, 0.5 and 0.75. *)
Definition Float64 (g : N) : float64 * N :=
  (match N.modulo g 3 with
   | 0%N => S754_zero false
   | 1%N => S754_finite false 4503599627370496 (-53)
   | _ => S754_finite false 6755399441055744 (-53)
   end, N.succ g).

(** The backend counts the calls that reached a beacon node. *)
#[export] Instance externals : Externals := {|
  Context := unit;
  Decl := fun _ => unit;
  Decl_zero := fun _ => tt;
  Backend := nat;
  Source := N;
  rand_Seed := fun seed => Z.to_N seed;
  rand_Float64 := Float64
|}.

Definition env0 : Env := mkEnv 0%N 1600000000000000000%Z 0.

Definition served (e : Env) : Env :=
  mkEnv (rng e) (clock e) (S (backend e)).

(** A node that answers every call: twelve seconds for the slot duration,
    the zero value otherwise. *)
Definition healthy_method (op : Op) (ctx : Context)
    (a : tuple (arg_types op)) : M (result op) :=
  fun e =>
    ((match op as o return denote (result_type o) with
      | OpSlotDuration => 12000000000%Z
      | o => zero_value (result_type o)
      end, None), served e, []).

(** A node whose every call fails with "connection refused". *)
Definition failing_method (op : Op) (ctx : Context)
    (a : tuple (arg_types op)) : M (result op) :=
  fun e =>
    ((zero_value (result_type op), Some (errors.New "connection refused")),
     served e, []).

Definition all_providers (p : Provider) : bool := true.
Definition no_provider (p : Provider) : bool := false.

Definition nodeA : Service :=
  eth2client.mkService "A" "http://a:5052" all_providers failing_method.
Definition nodeB : Service :=
  eth2client.mkService "B" "http://b:5052" all_providers healthy_method.
(** A service that implements eth2client.Service and no provider. *)
Definition bare : Service :=
  eth2client.mkService "bare" "http://c:5052" no_provider healthy_method.

(** Erroring clients: one that never injects over a healthy node, one
    that always injects over the service without providers. *)
(** Rosters of the multi-client service. *)
Definition failing_then_healthy : multi.Service :=
  multi.mkService [nodeA; nodeB].
Definition healthy_only : multi.Service :=
  multi.mkService [nodeB].
Definition bare_then_healthy : multi.Service :=
  multi.mkService [bare; nodeB].
Definition nobody : multi.Service :=
  multi.mkService [].

Definition quiet : testclients.Erroring :=
  testclients.mkErroring float64_0 nodeB.
Definition noisy_bare : testclients.Erroring :=
  testclients.mkErroring float64_1 bare.
Definition quiet_bare : testclients.Erroring :=
  testclients.mkErroring float64_0 bare.
End demo.

(* ================================================================== *)
(** ** Vocabulary of the statements *)

Module run.
Import eth2client testclients.

(** The three components of a run. *)
Definition value {A E : Type} (r : A * E * list Event) : A := fst (fst r).
Definition final {A E : Type} (r : A * E * list Event) : E := snd (fst r).
Definition events {A E : Type} (r : A * E * list Event) : list Event := snd r.

(** The sample the next call of rand.Float64 draws, and the environment
    after it was drawn. *)
Definition roll_of `{Externals} (e : Env) : float64 :=
  fst (rand_Float64 (rng e)).
Definition after_roll `{Externals} (e : Env) : Env :=
  mkEnv (snd (rand_Float64 (rng e))) (clock e) (backend e).

(** rand.Float64 returns a number in the half-open interval [0.0, 1.0). *)
Definition in_unit_interval (x : float64) : Prop :=
  SFleb float64_0 x = true /\ SFltb x float64_1 = true.

(** The part of a method of [*Erroring] after the roll, when no error is
    injected: the capability check, then the forwarded call. *)
Definition after_roll_path `{Externals} (s : Erroring) (op : Op)
    (ctx : Context) (a : tuple (arg_types op)) : M (result op) :=
  if implements (next s) (provider_of op)
  then call (next s) op ctx a
  else ret (zero_value (result_type op),
            Some (fmt.Errorf_does_not_support (Name (next s)) (Address (next s)))).

(** The shape the methods of [*Erroring] share. *)
Definition guarded `{Externals} (s : Erroring) (op : Op)
    (ctx : Context) (a : tuple (arg_types op)) : M (result op) :=
  err <- maybeError s ctx ;;
  match err with
  | Some err => ret (zero_value (result_type op), Some err)
  | None => after_roll_path s op ctx a
  end.

(** An event of a call into the service [c]. *)
Definition invokes `{Externals} (c : Service) (ev : Event) : Prop :=
  exists op, ev = EvInvoke (Name c) (Address c) op.
End run.

(* ================================================================== *)
(** ** The identity methods of [*Erroring], and sequences of calls *)

Module identity.
Import eth2client testclients.

Section Format.
Context `{Externals}.

(** How fmt's verb %v prints a float64; the printer is not among the
    sources. *)
Variable format_float64 : float64 -> string.

(** Name returns the name of the client implementation. *)
Definition Name (s : Erroring) : string :=
  let nextName := eth2client.Name (next s) in
  "erroring(" ++ format_float64 (errorRate s) ++ "," ++ nextName ++ ")".

(** Address returns the address of the client. *)
Definition Address (s : Erroring) : string :=
  let nextAddress := eth2client.Address (next s) in
  "erroring:" ++ format_float64 (errorRate s) ++ "," ++ nextAddress.

End Format.
End identity.

Module session.
Import eth2client testclients.

(** One call on an Erroring client: the method, the context and the
    arguments. *)
Record Request `{Externals} : Type := mkRequest {
  req_op : Op;
  req_ctx : Context;
  req_args : tuple (arg_types req_op)
}.
Arguments mkRequest {_} _ _ _.

(** The calls of a list made one after the other on the same client; the
    errors they return, in order. *)
Fixpoint calls `{Externals} (s : Erroring) (rs : list Request)
    : M (list (option error)) :=
  match rs with
  | [] => ret []
  | r :: rs' =>
    x <- Erroring_method s (req_op r) (req_ctx r) (req_args r) ;;
    xs <- calls s rs' ;;
    ret (snd x :: xs)
  end.

(** The state of the random source after [n] samples were drawn. *)
Fixpoint draws `{Externals} (n : nat) (g : Source) : Source :=
  match n with
  | O => g
  | S n' => draws n' (snd (rand_Float64 g))
  end.

(** NewErroring followed by one call on the client it returned. *)
Definition construct_then_call `{Externals} (ctx : Context) (rate : float64)
    (nxt : option Service) (op : Op) (a : tuple (arg_types op))
    : M (option (result op)) :=
  made <- NewErroring ctx rate nxt ;;
  match fst made with
  | None => ret None
  | Some s => r <- Erroring_method s op ctx a ;; ret (Some r)
  end.

(** Whether a string holds the character '@'. *)
Fixpoint has_at (s : string) : bool :=
  match s with
  | EmptyString => false
  | String c s' => Ascii.eqb c "@"%char || has_at s'
  end.

End session.

(** Erroring clients as services of a roster or of another Erroring client,
    in the concrete world. *)
Module layers.
Import eth2client demo.

(** An Erroring client that always injects, over the healthy node. *)
Definition noisy : testclients.Erroring :=
  testclients.mkErroring float64_1 nodeB.

(** The service value of [quiet] and of [noisy]: their methods are those
    of [*Erroring]. *)
Definition quiet_service : Service :=
  eth2client.mkService "erroring(0,B)" "erroring:0,http://b:5052"
    all_providers (testclients.Erroring_method quiet).
Definition noisy_service : Service :=
  eth2client.mkService "erroring(1,B)" "erroring:1,http://b:5052"
    all_providers (testclients.Erroring_method noisy).

(** A second injector, at rate one half, over [quiet]. *)
Definition half_over_quiet : testclients.Erroring :=
  testclients.mkErroring (S754_finite false 4503599627370496 (-53)) quiet_service.

(** The roster [noisy; B]. *)
Definition noisy_then_healthy : multi.Service :=
  multi.mkService [noisy_service; nodeB].

(** Three calls of different methods. *)
Definition three_calls : list session.Request :=
  [session.mkRequest OpSlotDuration tt tt;
   session.mkRequest OpSubmitAttestations tt [];
   session.mkRequest OpNodeVersion tt tt].

(** A client whose SlotDuration fails with the text the multi-client
    service uses for an empty roster (a nested multi-client service without
    active clients answers so), and the roster that holds only this
    client. *)
Definition echo_method (op : Op) (ctx : Context)
    (a : tuple (arg_types op)) : M (result op) :=
  fun e =>
    ((zero_value (result_type op),
      Some (errors.New "no active Ethereum 2 clients")),
     served e, []).
Definition echo : Service :=
  eth2client.mkService "nested" "multi:nested" all_providers echo_method.
Definition echo_only : multi.Service :=
  multi.mkService [echo].

(** A printer of float64 for the examples. *)
Definition print_rate (x : float64) : string :=
  match x with
  | S754_zero _ => "0"
  | S754_nan => "NaN"
  | _ => "1"
  end.
End layers.

(* ================================================================== *)
(** ** The error-injecting client *)

Section ErroringFacts.
Import eth2client testclients run.
Context `{Externals}.

Ltac head_of t :=
  match t with
  | ?f _ => head_of f
  | _ => t
  end.

(** The float64 constants compare as the numbers they stand for. *)
Example float64_order :
  float64_lt float64_0 float64_1 = true
  /\ float64_lt (S754_finite false 4503599627370496 (-53)) float64_1 = true
  /\ float64_lt float64_1 float64_1 = false
  /\ float64_gt (S754_finite false 4503599627370497 (-52)) float64_1 = true
  /\ float64_lt S754_nan float64_0 = false
  /\ float64_gt S754_nan float64_1 = false.
Proof. repeat split. Qed.

Lemma bind_run (A B : Type) (m : M A) (k : A -> M B) (e : Env) :
  bind m k e =
  (value (k (value (m e)) (final (m e))),
   final (k (value (m e)) (final (m e))),
   events (m e) ++ events (k (value (m e)) (final (m e)))).
Proof.
  unfold bind, value, final, events.
  destruct (m e) as [[a e1] t1]; simpl.
  destruct (k a e1) as [[b e2] t2]; reflexivity.
Qed.

Lemma maybeError_run (s : Erroring) (ctx : Context) (e : Env) :
  maybeError s ctx e =
  (if float64_lt (roll_of e) (errorRate s)
   then Some (errors.New "error") else None,
   after_roll e, []).
Proof.
  unfold maybeError, bind, rand.Float64, roll_of, after_roll.
  destruct (rand_Float64 (rng e)) as [roll g]; simpl.
  destruct (float64_lt roll (errorRate s)); reflexivity.
Qed.

(** Every method of [*Erroring] has the shared shape, with the zero value
    of its own result type, the provider interface that declares the
    method it forwards to, and its own arguments. *)
Lemma Erroring_method_guarded (s : Erroring) (op : Op) (ctx : Context)
    (a : tuple (arg_types op)) :
  Erroring_method s op ctx a = guarded s op ctx a.
Proof.
  destruct op; cbn [tuple arg_types] in a;
    match type of a with
    | (_ * (_ * _))%type => destruct a as [a1 [a2 a3]]
    | (_ * _)%type => destruct a as [a1 a2]
    | unit => destruct a
    | _ => idtac
    end;
    unfold guarded, after_roll_path; cbn [provider_of fst snd];
    unfold Erroring_method;
    match goal with |- ?lhs = _ => let h := head_of lhs in unfold h end;
    match goal with
    | |- context [implements ?n ?p] => destruct (implements n p)
    end; reflexivity.
Qed.

Lemma guarded_injected (s : Erroring) (op : Op) (ctx : Context)
    (a : tuple (arg_types op)) (e : Env) :
  float64_lt (roll_of e) (errorRate s) = true ->
  guarded s op ctx a e =
  ((zero_value (result_type op), Some (errors.New "error")), after_roll e, []).
Proof.
  intros Hroll. unfold guarded. rewrite bind_run, maybeError_run, Hroll.
  reflexivity.
Qed.

Lemma guarded_not_injected (s : Erroring) (op : Op) (ctx : Context)
    (a : tuple (arg_types op)) (e : Env) :
  float64_lt (roll_of e) (errorRate s) = false ->
  guarded s op ctx a e = after_roll_path s op ctx a (after_roll e).
Proof.
  intros Hroll. unfold guarded. rewrite bind_run, maybeError_run, Hroll.
  unfold value, final, events; simpl.
  destruct (after_roll_path s op ctx a (after_roll e)) as [[b e2] t2].
  reflexivity.
Qed.

(** C6: when the roll is not below errorRate and the wrapped service
    implements the provider interface of the operation, the call on the
    Erroring client is the same call on the wrapped service, with the
    same context and arguments, started in the environment the roll left:
    same value, same error, same effects. *)
Theorem Erroring_forwards_unchanged (s : Erroring) (op : Op) (ctx : Context)
    (a : tuple (arg_types op)) (e : Env) :
  float64_lt (roll_of e) (errorRate s) = false ->
  implements (next s) (provider_of op) = true ->
  Erroring_method s op ctx a e = call (next s) op ctx a (after_roll e).
Proof.
  intros Hroll Himpl.
  rewrite Erroring_method_guarded, guarded_not_injected by exact Hroll.
  unfold after_roll_path. rewrite Himpl. reflexivity.
Qed.

(** C9: the injected-error check comes first.  Whenever maybeError
    returns an error, every operation returns the zero value of its
    result type with that error, whatever the wrapped service implements;
    the run has no event, so the wrapped service is not called, and the
    backend is left as it was. *)
Theorem Erroring_injected_error_first (s : Erroring) (op : Op) (ctx : Context)
    (a : tuple (arg_types op)) (e e' : Env) (err : error) (t : list Event) :
  maybeError s ctx e = (Some err, e', t) ->
  Erroring_method s op ctx a e = ((zero_value (result_type op), Some err), e', t)
  /\ t = []
  /\ backend e' = backend e.
Proof.
  intros Hinj. rewrite maybeError_run in Hinj.
  destruct (float64_lt (roll_of e) (errorRate s)) eqn:Hroll.
  - injection Hinj as <- <- <-.
    rewrite Erroring_method_guarded, guarded_injected by exact Hroll.
    repeat split.
  - discriminate Hinj.
Qed.

(** C4, amended: when the wrapped service does not implement the
    provider interface of the operation, the operation never reaches the
    wrapped service (no event, backend unchanged); and when moreover no
    error is injected, it returns the zero value of its result type with
    the error "<name>@<address> does not support this call". *)
Theorem Erroring_unsupported (s : Erroring) (op : Op) (ctx : Context)
    (a : tuple (arg_types op)) (e : Env) :
  implements (next s) (provider_of op) = false ->
  (events (Erroring_method s op ctx a e) = []
   /\ backend (final (Erroring_method s op ctx a e)) = backend e)
  /\ (value (maybeError s ctx e) = None ->
      value (Erroring_method s op ctx a e) =
      (zero_value (result_type op),
       Some (fmt.Errorf_does_not_support (Name (next s)) (Address (next s))))).
Proof.
  intros Himpl. rewrite Erroring_method_guarded, maybeError_run.
  destruct (float64_lt (roll_of e) (errorRate s)) eqn:Hroll.
  - rewrite guarded_injected by exact Hroll.
    split; [split; reflexivity | discriminate].
  - rewrite guarded_not_injected by exact Hroll.
    unfold after_roll_path. rewrite Himpl.
    split; [split; reflexivity | reflexivity].
Qed.

(** C7: NewErroring returns an error and no client exactly when the next
    service is nil, or errorRate < 0, or errorRate > 1; otherwise it
    returns no error and a client that holds the supplied errorRate and
    next service. *)
Theorem NewErroring_rejects_exactly (ctx : Context) (rate : float64)
    (nxt : option Service) (e : Env) :
  let rejected :=
    nxt = None \/ float64_lt rate float64_0 = true
    \/ float64_gt rate float64_1 = true in
  ((exists err, value (NewErroring ctx rate nxt e) = (None, Some err))
   <-> rejected)
  /\ (~ rejected ->
      exists n, nxt = Some n
        /\ value (NewErroring ctx rate nxt e) = (Some (mkErroring rate n), None)).
Proof.
  unfold NewErroring. destruct nxt as [n|]; cbn zeta.
  - destruct (float64_lt rate float64_0) eqn:Hlt.
    + split.
      * split; [intros _; right; left; reflexivity | intros _; eexists; reflexivity].
      * intros Hn. exfalso. apply Hn. right; left; reflexivity.
    + destruct (float64_gt rate float64_1) eqn:Hgt.
      * split.
        -- split; [intros _; right; right; reflexivity | intros _; eexists; reflexivity].
        -- intros Hn. exfalso. apply Hn. right; right; reflexivity.
      * split.
        -- split.
           ++ intros [err Herr]. discriminate Herr.
           ++ intros [Hnil | [Hf | Hf]]; discriminate.
        -- intros _. exists n. split; reflexivity.
  - split.
    + split; [intros _; left; reflexivity | intros _; eexists; reflexivity].
    + intros Hn. exfalso. apply Hn. left; reflexivity.
Qed.

Lemma below_zero_is_not_in_range (x : float64) (sg : bool) :
  SFleb float64_0 x = true -> float64_lt x (S754_zero sg) = false.
Proof.
  unfold float64_lt, SFltb, SFleb, float64_0.
  destruct x as [s0 | s0 | | s0 m0 e0]; simpl; try reflexivity;
    destruct s0; simpl; try reflexivity; discriminate.
Qed.

(** C10: maybeError returns its error exactly when the sample it draws is
    below errorRate.  With the sample in [0, 1): a client with errorRate 0
    never injects, each of its calls being the capability check and the
    forwarded call; a client with errorRate 1 injects in every call.
    NewErroring accepts both rates. *)
Theorem maybeError_threshold (s : Erroring) (ctx : Context) (e : Env) :
  in_unit_interval (roll_of e) ->
  (value (maybeError s ctx e) = Some (errors.New "error")
   <-> float64_lt (roll_of e) (errorRate s) = true)
  /\ (value (maybeError s ctx e) = None
      <-> float64_lt (roll_of e) (errorRate s) = false)
  /\ final (maybeError s ctx e) = after_roll e
  /\ (errorRate s = float64_0 ->
      value (NewErroring ctx float64_0 (Some (next s)) e) = (Some s, None)
      /\ value (maybeError s ctx e) = None
      /\ forall op a,
           Erroring_method s op ctx a e = after_roll_path s op ctx a (after_roll e))
  /\ (errorRate s = float64_1 ->
      value (NewErroring ctx float64_1 (Some (next s)) e) = (Some s, None)
      /\ value (maybeError s ctx e) = Some (errors.New "error")
      /\ forall op a,
           Erroring_method s op ctx a e =
           ((zero_value (result_type op), Some (errors.New "error")),
            after_roll e, [])).
Proof.
  intros [Hge Hlt]. rewrite maybeError_run. unfold value, final; simpl.
  split; [| split; [| split; [| split]]].
  - destruct (float64_lt (roll_of e) (errorRate s));
      split; (reflexivity || discriminate).
  - destruct (float64_lt (roll_of e) (errorRate s));
      split; (reflexivity || discriminate).
  - reflexivity.
  - intros Hrate.
    assert (Hroll : float64_lt (roll_of e) (errorRate s) = false).
    { rewrite Hrate. exact (@below_zero_is_not_in_range _ false Hge). }
    split; [| split].
    + destruct s as [r n]; simpl in *. subst r. reflexivity.
    + rewrite Hroll. reflexivity.
    + intros op a. rewrite Erroring_method_guarded.
      apply guarded_not_injected. exact Hroll.
  - intros Hrate.
    assert (Hroll : float64_lt (roll_of e) (errorRate s) = true).
    { rewrite Hrate. exact Hlt. }
    split; [| split].
    + destruct s as [r n]; simpl in *. subst r. reflexivity.
    + rewrite Hroll. reflexivity.
    + intros op a. rewrite Erroring_method_guarded.
      apply guarded_injected. exact Hroll.
Qed.

End ErroringFacts.

(* ================================================================== *)
(** ** The multi-client SlotDuration *)

Section MultiFacts.
Import eth2client multi run.
Context `{Externals}.

(** The run of SlotDuration, by the shape of the roster. *)
Lemma SlotDuration_run (s : Service) (ctx : Context) (e : Env) :
  SlotDuration s ctx e =
  match activeClients s with
  | [] => (Returned (0%Z, Some (errors.New "no active Ethereum 2 clients")),
           e, [EvRLock; EvRUnlock])
  | c :: _ =>
    if implements c SlotDurationProvider
    then (Returned (value (call c OpSlotDuration ctx tt e)),
          final (call c OpSlotDuration ctx tt e),
          EvRLock :: events (call c OpSlotDuration ctx tt e) ++ [EvRUnlock])
    else (Panicked, e, [EvRLock; EvRUnlock])
  end.
Proof.
  unfold SlotDuration, defer, RLock, RUnlock.
  destruct (activeClients s) as [|c rest]; [reflexivity |].
  cbn [List.length Nat.eqb nth_error].
  destruct (implements c SlotDurationProvider); [| reflexivity].
  unfold bind, tell, ret, value, final, events.
  destruct (call c OpSlotDuration ctx tt e) as [[r e1] t1]. simpl.
  rewrite app_nil_r. reflexivity.
Qed.

Lemma call_events (c : eth2client.Service) (op : Op) (ctx : Context)
    (a : tuple (arg_types op)) (e : Env) :
  events (call c op ctx a e) =
  EvInvoke (Name c) (Address c) op :: events (method c op ctx a e).
Proof.
  unfold call, bind, tell, events.
  destruct (method c op ctx a e) as [[r e1] t1]. reflexivity.
Qed.

(** A first client that does not implement SlotDurationProvider: the type
    assertion panics, whatever the rest of the roster. *)
Lemma SlotDuration_first_client_unsupported (s : Service) (ctx : Context)
    (e : Env) (c : eth2client.Service) (rest : list eth2client.Service) :
  activeClients s = c :: rest ->
  implements c SlotDurationProvider = false ->
  SlotDuration s ctx e = (Panicked, e, [EvRLock; EvRUnlock]).
Proof.
  intros Hroster Himpl. rewrite SlotDuration_run, Hroster, Himpl. reflexivity.
Qed.

(** C1, amended: with a roster whose first client implements
    SlotDurationProvider, SlotDuration is one call of that client's
    SlotDuration, made under the read lock; the value and the error of
    that call are returned as they are, and no other client of the roster
    takes part. *)
Theorem SlotDuration_first_client_only (s : Service) (ctx : Context)
    (e : Env) (c : eth2client.Service) (rest : list eth2client.Service) :
  activeClients s = c :: rest ->
  implements c SlotDurationProvider = true ->
  SlotDuration s ctx e =
  (Returned (value (call c OpSlotDuration ctx tt e)),
   final (call c OpSlotDuration ctx tt e),
   EvRLock :: events (call c OpSlotDuration ctx tt e) ++ [EvRUnlock]).
Proof.
  intros Hroster Himpl. rewrite SlotDuration_run, Hroster, Himpl. reflexivity.
Qed.

(** C3, amended: SlotDuration takes the read lock first and releases it
    last, on every path.  With an empty roster nothing happens in
    between; with a first client that implements SlotDurationProvider the
    call to that client is made in between, while the lock is held. *)
Theorem SlotDuration_lock_scope (s : Service) (ctx : Context) (e : Env) :
  (exists mid, events (SlotDuration s ctx e) = EvRLock :: mid ++ [EvRUnlock])
  /\ (activeClients s = [] ->
      events (SlotDuration s ctx e) = [EvRLock; EvRUnlock])
  /\ (forall c rest,
        activeClients s = c :: rest ->
        implements c SlotDurationProvider = true ->
        events (SlotDuration s ctx e) =
          EvRLock :: events (call c OpSlotDuration ctx tt e) ++ [EvRUnlock]
        /\ policy.no_call_while_locked 0 (events (SlotDuration s ctx e)) = false).
Proof.
  rewrite SlotDuration_run. split; [| split].
  - destruct (activeClients s) as [|c rest].
    + exists []. reflexivity.
    + destruct (implements c SlotDurationProvider).
      * eexists. reflexivity.
      * exists []. reflexivity.
  - intros ->. reflexivity.
  - intros c rest -> ->. split; [reflexivity |].
    unfold events at 1. cbn [snd]. rewrite call_events. reflexivity.
Qed.

(** C5, amended: with an empty roster SlotDuration returns a zero duration
    with the error "no active Ethereum 2 clients" and calls no client.
    With a non-empty roster it does not answer by itself: it panics or
    returns what the first client returned, which may be that same pair.
    So a run returns that pair without a call to any client exactly when
    the roster is empty. *)
Theorem SlotDuration_no_active_clients (s : Service) (ctx : Context) (e : Env) :
  (activeClients s = [] ->
     SlotDuration s ctx e =
     (Returned (0%Z, Some (errors.New "no active Ethereum 2 clients")),
      e, [EvRLock; EvRUnlock]))
  /\ (forall c rest,
        activeClients s = c :: rest ->
        value (SlotDuration s ctx e) =
        if implements c SlotDurationProvider
        then Returned (value (call c OpSlotDuration ctx tt e))
        else Panicked)
  /\ ((value (SlotDuration s ctx e) =
         Returned (0%Z, Some (errors.New "no active Ethereum 2 clients"))
       /\ forall name address op,
            ~ In (EvInvoke name address op) (events (SlotDuration s ctx e)))
      <-> activeClients s = []).
Proof.
  rewrite SlotDuration_run. split; [| split].
  - intros ->. reflexivity.
  - intros c rest ->.
    destruct (implements c SlotDurationProvider); reflexivity.
  - split.
    + intros [Hval Hquiet].
      destruct (activeClients s) as [|c rest]; [reflexivity | exfalso].
      destruct (implements c SlotDurationProvider).
      * apply (Hquiet (Name c) (Address c) OpSlotDuration).
        unfold events at 1. cbn [snd]. rewrite call_events.
        right. left. reflexivity.
      * discriminate Hval.
    + intros ->. split; [reflexivity |].
      intros name address op [Hin | [Hin | []]]; discriminate Hin.
Qed.

End MultiFacts.

(* ================================================================== *)
(** ** Corroboration *)

Section CorroborationFacts.
Import router.
Variable V : Type.
Variable V_eq_dec : forall x y : V, {x = y} + {x <> y}.

Lemma agreeing_disjoint (u v : V) (returned : list V) :
  u <> v -> agreeing V_eq_dec u returned + agreeing V_eq_dec v returned <= List.length returned.
Proof.
  intros Hneq. unfold agreeing.
  induction returned as [|x xs IH]; simpl; [lia |].
  destruct (V_eq_dec x u) as [Hu | Hu]; destruct (V_eq_dec x v) as [Hv | Hv];
    try lia.
  exfalso. apply Hneq. congruence.
Qed.

Lemma strict_majority_unique (u v : V) (returned : list V) :
  strict_majority V_eq_dec returned u = true ->
  strict_majority V_eq_dec returned v = true ->
  u = v.
Proof.
  unfold strict_majority. intros Hu Hv.
  apply Nat.ltb_lt in Hu. apply Nat.ltb_lt in Hv.
  destruct (V_eq_dec u v) as [Heq | Hneq]; [exact Heq | exfalso].
  pose proof (agreeing_disjoint returned Hneq). lia.
Qed.

Lemma strict_majority_occurs (v : V) (returned : list V) :
  strict_majority V_eq_dec returned v = true -> In v returned.
Proof.
  unfold strict_majority, agreeing. intros Hv.
  apply Nat.ltb_lt in Hv.
  apply (count_occ_In V_eq_dec). lia.
Qed.

Lemma corroborate_accepts (returned : list V) (v : V) :
  corroborate V_eq_dec returned = Accepted v <-> strict_majority V_eq_dec returned v = true.
Proof.
  unfold corroborate. split.
  - destruct (find (strict_majority V_eq_dec returned) returned) as [x|] eqn:Hfind;
      [| discriminate].
    intros Hacc. injection Hacc as ->.
    apply find_some in Hfind. exact (proj2 Hfind).
  - intros Hv.
    destruct (find (strict_majority V_eq_dec returned) returned) as [x|] eqn:Hfind.
    + apply find_some in Hfind. destruct Hfind as [_ Hx].
      f_equal. exact (strict_majority_unique _ _ _ Hx Hv).
    + pose proof (find_none _ _ Hfind v (strict_majority_occurs _ _ Hv)) as Hno.
      rewrite Hv in Hno. discriminate Hno.
Qed.

(** C8: for an odd number of endpoints, when more than half of them
    returned the same value the result is that value; when no value was
    returned by more than half of them the result is the consistency
    failure; and a value is only ever accepted when more than half of the
    endpoints returned it. *)
Theorem corroborate_majority (returned : list V) :
  Nat.odd (List.length returned) = true ->
  (forall v, strict_majority V_eq_dec returned v = true ->
             corroborate V_eq_dec returned = Accepted v)
  /\ ((forall v, strict_majority V_eq_dec returned v = false) ->
      corroborate V_eq_dec returned = ConsistencyFailure V)
  /\ (forall v, corroborate V_eq_dec returned = Accepted v ->
                strict_majority V_eq_dec returned v = true).
Proof.
  intros _. split; [| split].
  - intros v Hv. apply corroborate_accepts. exact Hv.
  - intros Hnone.
    destruct (corroborate V_eq_dec returned) as [x|] eqn:Hres; [| reflexivity].
    apply corroborate_accepts in Hres. rewrite Hnone in Hres. discriminate Hres.
  - intros v Hv. apply corroborate_accepts. exact Hv.
Qed.

End CorroborationFacts.

(* ================================================================== *)
(** ** Concrete runs *)

Section Runs.
Import eth2client testclients run demo.

(** The roster [A; B], A failing and B healthy: SlotDuration asks A and
    returns A's error; B is not asked. *)
Example failing_then_healthy_run :
  multi.SlotDuration failing_then_healthy tt env0 =
  (multi.Returned (0%Z, Some (errors.New "connection refused")),
   served env0,
   [EvRLock; EvInvoke "A" "http://a:5052" OpSlotDuration; EvRUnlock]).
Proof. reflexivity. Qed.

(** On the same roster the static-value policy of the specification goes
    on to B and returns its twelve seconds. *)
Example failing_then_healthy_policy :
  policy.static_value (multi.activeClients failing_then_healthy) tt env0 =
  ((12000000000%Z, None),
   served (served env0),
   [EvInvoke "A" "http://a:5052" OpSlotDuration;
    EvInvoke "B" "http://b:5052" OpSlotDuration]).
Proof. reflexivity. Qed.

(** C1, counterexample: on the roster [A; B] with A failing and B healthy
    the code does not return what the failover policy returns. *)
Lemma SlotDuration_does_not_fail_over :
  ~ policy.follows_static_value failing_then_healthy tt env0.
Proof.
  unfold policy.follows_static_value.
  rewrite failing_then_healthy_run, failing_then_healthy_policy.
  cbn [fst]. intros Heq. discriminate Heq.
Qed.

Lemma SlotDuration_first_client_only_witness :
  multi.SlotDuration failing_then_healthy tt env0 =
  (multi.Returned (value (call nodeA OpSlotDuration tt tt env0)),
   final (call nodeA OpSlotDuration tt tt env0),
   EvRLock :: events (call nodeA OpSlotDuration tt tt env0) ++ [EvRUnlock]).
Proof.
  apply (@SlotDuration_first_client_only externals failing_then_healthy tt env0
           nodeA [nodeB]); reflexivity.
Defined.

(** C2: a roster whose first client implements no provider interface.
    The unchecked type assertion panics; no error is returned, although
    the second client of the roster implements SlotDurationProvider. *)
Theorem SlotDuration_unsupported_first_client_panics :
  multi.SlotDuration bare_then_healthy tt env0 =
  (multi.Panicked, env0, [EvRLock; EvRUnlock]).
Proof. reflexivity. Qed.

(** C3, counterexample: on the roster [B] the call to B is made while the
    read lock is held. *)
Lemma SlotDuration_calls_while_locked :
  ~ policy.no_call_while_locked 0
      (events (multi.SlotDuration healthy_only tt env0)) = true.
Proof. vm_compute. discriminate. Qed.

Lemma SlotDuration_lock_scope_witness :
  events (multi.SlotDuration healthy_only tt env0) =
    EvRLock :: events (call nodeB OpSlotDuration tt tt env0) ++ [EvRUnlock]
  /\ policy.no_call_while_locked 0
       (events (multi.SlotDuration healthy_only tt env0)) = false.
Proof.
  apply (proj2 (proj2 (@SlotDuration_lock_scope externals healthy_only tt env0))
           nodeB []); reflexivity.
Defined.

Lemma SlotDuration_no_active_clients_witness :
  multi.SlotDuration nobody tt env0 =
  (multi.Returned (0%Z, Some (errors.New "no active Ethereum 2 clients")),
   env0, [EvRLock; EvRUnlock]).
Proof.
  apply (proj1 (@SlotDuration_no_active_clients externals nobody tt env0)).
  reflexivity.
Defined.

(** C4, counterexample: the wrapped service implements no provider
    interface and errorRate is 1; the call returns the injected error, not
    the "does not support this call" error. *)
Lemma Erroring_unsupported_but_injected :
  ~ (implements (next noisy_bare) (provider_of OpPrysmAttesterDuties) = false ->
     value (Erroring_method noisy_bare OpPrysmAttesterDuties tt (0%N, []) env0) =
     (zero_value (result_type OpPrysmAttesterDuties),
      Some (fmt.Errorf_does_not_support (Name (next noisy_bare))
              (Address (next noisy_bare))))).
Proof.
  intros Hclaim. specialize (Hclaim eq_refl).
  vm_compute in Hclaim. discriminate Hclaim.
Qed.

Lemma Erroring_unsupported_witness :
  value (Erroring_method quiet_bare OpPrysmAttesterDuties tt (0%N, []) env0) =
  (zero_value (result_type OpPrysmAttesterDuties),
   Some (errors.New "bare@http://c:5052 does not support this call")).
Proof.
  apply (proj2 (@Erroring_unsupported externals quiet_bare OpPrysmAttesterDuties
                  tt (0%N, []) env0 eq_refl)).
  reflexivity.
Defined.

Lemma Erroring_forwards_unchanged_witness :
  Erroring_method quiet OpSlotDuration tt tt env0 =
  call nodeB OpSlotDuration tt tt (after_roll env0).
Proof.
  apply (@Erroring_forwards_unchanged externals quiet OpSlotDuration tt tt env0);
    reflexivity.
Defined.

Lemma Erroring_injected_error_first_witness :
  Erroring_method noisy_bare OpSubmitAttestations tt [] env0 =
    ((tt, Some (errors.New "error")), after_roll env0, [])
  /\ @nil Event = []
  /\ backend (after_roll env0) = backend env0.
Proof.
  apply (@Erroring_injected_error_first externals noisy_bare OpSubmitAttestations
           tt [] env0 (after_roll env0) (errors.New "error") []).
  reflexivity.
Defined.

Lemma NewErroring_rejects_exactly_witness :
  exists n, Some nodeB = Some n
    /\ value (NewErroring tt float64_1 (Some nodeB) env0) =
       (Some (mkErroring float64_1 n), None).
Proof.
  apply (proj2 (@NewErroring_rejects_exactly externals tt float64_1
                  (Some nodeB) env0)).
  intros [Hnil | [Hlt | Hgt]]; discriminate.
Defined.

Lemma maybeError_threshold_witness :
  value (maybeError quiet tt env0) = None
  /\ forall op a,
       Erroring_method quiet op tt a env0 =
       after_roll_path quiet op tt a (after_roll env0).
Proof.
  assert (Hrange : in_unit_interval (roll_of env0)) by (split; reflexivity).
  destruct (proj2 (proj2 (proj2 (@maybeError_threshold externals quiet tt env0 Hrange))))
    as [Hzero _].
  exact (proj2 (Hzero eq_refl)).
Defined.

Lemma corroborate_majority_witness :
  router.corroborate Nat.eq_dec [7; 9; 7] = router.Accepted 7.
Proof.
  apply (proj1 (@corroborate_majority nat Nat.eq_dec [7; 9; 7] eq_refl)).
  reflexivity.
Defined.

End Runs.

(* ================================================================== *)
(** ** More on the construction and the error rate *)

Section ConstructionFacts.
Import eth2client testclients run session.
Context `{Externals}.

(** X1: NewErroring emits no event and leaves the clock and the backend as
    they were.  When it returns an error the environment is unchanged: the
    random source is not reseeded.  When it returns a client the source is
    reseeded from the clock. *)
Theorem NewErroring_effects (ctx : Context) (rate : float64)
    (nxt : option Service) (e : Env) :
  events (NewErroring ctx rate nxt e) = []
  /\ clock (final (NewErroring ctx rate nxt e)) = clock e
  /\ backend (final (NewErroring ctx rate nxt e)) = backend e
  /\ (snd (value (NewErroring ctx rate nxt e)) <> None ->
      final (NewErroring ctx rate nxt e) = e)
  /\ (snd (value (NewErroring ctx rate nxt e)) = None ->
      rng (final (NewErroring ctx rate nxt e)) = rand_Seed (clock e)).
Proof.
  unfold NewErroring. destruct nxt as [n|].
  - destruct (float64_lt rate float64_0);
      [repeat split; intros Hnone; discriminate Hnone |].
    destruct (float64_gt rate float64_1);
      [repeat split; intros Hnone; discriminate Hnone |].
    repeat split. intros Herr. exfalso. apply Herr. reflexivity.
  - repeat split. intros Hnone. discriminate Hnone.
Qed.

(** X2: with a next service supplied, NewErroring returns a client exactly
    for the rates that are a NaN or lie between 0 and 1, both included. *)
Theorem NewErroring_accepted_rates (ctx : Context) (rate : float64)
    (n : Service) (e : Env) :
  snd (value (NewErroring ctx rate (Some n) e)) = None
  <-> (rate = S754_nan
       \/ (SFleb float64_0 rate = true /\ SFleb rate float64_1 = true)).
Proof.
  unfold NewErroring, float64_lt, float64_gt, SFltb, SFleb, float64_0, float64_1.
  destruct rate as [sg | sg | | sg m ex]; cbn [SFcompare].
  - destruct sg; split; intros; (reflexivity || (right; split; reflexivity)).
  - destruct sg; (split; [intros Hacc; discriminate Hacc |]);
      intros [Hnan | [Hlo Hhi]]; discriminate.
  - split; intros; [left; reflexivity | reflexivity].
  - destruct sg.
    + split; [intros Hacc; discriminate Hacc |].
      intros [Hnan | [Hlo Hhi]]; discriminate.
    + destruct (Z.compare ex (-52)); [destruct (Pos.compare_cont Eq m 4503599627370496) | |];
        split; intros Hacc;
          try reflexivity; try discriminate Hacc;
          try (right; split; reflexivity);
          destruct Hacc as [Hnan | [Hlo Hhi]]; discriminate.
Qed.

Lemma nothing_is_below_NaN (x : float64) : float64_lt x S754_nan = false.
Proof. destruct x as [sg | sg | | sg m ex]; reflexivity. Qed.

(** X3: NewErroring accepts a NaN error rate, and the client it returns
    never injects an error, whatever the sample: every call is the
    capability check and the forwarded call. *)
Theorem NaN_rate_never_injects (ctx : Context) (n : Service) (e : Env) :
  value (NewErroring ctx S754_nan (Some n) e) = (Some (mkErroring S754_nan n), None)
  /\ forall (e' : Env) (op : Op) (ctx' : Context) (a : tuple (arg_types op)),
       Erroring_method (mkErroring S754_nan n) op ctx' a e' =
       after_roll_path (mkErroring S754_nan n) op ctx' a (after_roll e').
Proof.
  split; [reflexivity |].
  intros e' op ctx' a. rewrite Erroring_method_guarded.
  apply guarded_not_injected. apply nothing_is_below_NaN.
Qed.

Ltac order_cases :=
  repeat match goal with
  | Hc : context [Z.compare ?a ?b] |- _ =>
    destruct (Z.compare_spec a b); try discriminate Hc
  | Hc : context [Pos.compare_cont Eq ?a ?b] |- _ =>
    let Hp := fresh "Hp" in
    destruct (Pos.compare_cont Eq a b) eqn:Hp;
    [ apply (Pos.compare_eq a b) in Hp
    | apply (proj1 (Pos.compare_lt_iff a b)) in Hp
    | apply (proj1 (Pos.compare_gt_iff a b)) in Hp ];
    try discriminate Hc
  | |- context [Z.compare ?a ?b] => destruct (Z.compare_spec a b)
  | |- context [Pos.compare_cont Eq ?a ?b] =>
    let Hp := fresh "Hp" in
    destruct (Pos.compare_cont Eq a b) eqn:Hp;
    [ apply (Pos.compare_eq a b) in Hp
    | apply (proj1 (Pos.compare_lt_iff a b)) in Hp
    | apply (proj1 (Pos.compare_gt_iff a b)) in Hp ]
  end.

(** The order of float64: below a number that is at most another is below
    the other. *)
Lemma float64_lt_le_trans (x y z : float64) :
  float64_lt x y = true -> SFleb y z = true -> float64_lt x z = true.
Proof.
  unfold float64_lt, SFltb, SFleb.
  destruct x as [sx | sx | | sx mx ex]; destruct y as [sy | sy | | sy my ey];
    destruct z as [sz | sz | | sz mz ez]; cbn [SFcompare];
    try discriminate; try reflexivity;
    repeat match goal with b : bool |- _ => destruct b end;
    try discriminate; try reflexivity;
    intros Hxy Hyz; order_cases;
    try reflexivity; try discriminate; subst; try lia.
Qed.

(** X4: injection is monotone in the error rate.  For the same sample, a
    call that is injected at one rate is injected at every rate that is at
    least as large. *)
Theorem injection_monotone_in_rate (s1 s2 : Erroring) (ctx : Context) (e : Env) :
  SFleb (errorRate s1) (errorRate s2) = true ->
  value (maybeError s1 ctx e) = Some (errors.New "error") ->
  value (maybeError s2 ctx e) = Some (errors.New "error").
Proof.
  intros Hle. rewrite !maybeError_run. unfold value; cbn [fst].
  destruct (float64_lt (roll_of e) (errorRate s1)) eqn:H1; [| discriminate].
  intros _. rewrite (float64_lt_le_trans _ _ _ H1 Hle). reflexivity.
Qed.

End ConstructionFacts.

(* ================================================================== *)
(** ** Calls in sequence and clients in layers *)

Section CompositionFacts.
Import eth2client testclients run session.
Context `{Externals}.

Lemma after_roll_draws (n : nat) (e : Env) :
  mkEnv (draws n (rng (after_roll e))) (clock (after_roll e)) (backend (after_roll e))
  = mkEnv (draws (S n) (rng e)) (clock e) (backend e).
Proof. reflexivity. Qed.

(** X5: with errorRate 1 and the samples of rand.Float64 in [0, 1), a
    sequence of calls of any length and of any methods returns the injected
    error for each call, draws one sample per call, and never reaches the
    wrapped service: no event, clock and backend unchanged. *)
Theorem full_rate_isolates_wrapped_service (s : Erroring) (rs : list Request)
    (e : Env) :
  (forall g : Source, in_unit_interval (fst (rand_Float64 g))) ->
  errorRate s = float64_1 ->
  calls s rs e =
  (List.map (fun _ => Some (errors.New "error")) rs,
   mkEnv (draws (List.length rs) (rng e)) (clock e) (backend e),
   []).
Proof.
  intros Hrange Hrate. revert e.
  induction rs as [|r rs IH]; intros e.
  - destruct e; reflexivity.
  - cbn [calls List.map List.length].
    rewrite bind_run, Erroring_method_guarded, guarded_injected.
    + unfold value, final, events; cbn [fst snd].
      rewrite bind_run, IH. unfold value, final, events; cbn [fst snd].
      unfold ret. rewrite after_roll_draws. reflexivity.
    + rewrite Hrate. exact (proj2 (Hrange (rng e))).
Qed.

(** X6: two injectors in layers.  When the service wrapped by [outer] is
    itself an Erroring client [inner], a call draws the outer sample first;
    if that injects, nothing else happens.  Otherwise the call enters the
    inner client, which draws a second sample and injects on it, or goes on
    to its own capability check and forwarded call. *)
Theorem layered_injectors (outer inner : Erroring) (op : Op) (ctx : Context)
    (a : tuple (arg_types op)) (e : Env) :
  implements (next outer) (provider_of op) = true ->
  method (next outer) op = Erroring_method inner op ->
  Erroring_method outer op ctx a e =
  if float64_lt (roll_of e) (errorRate outer)
  then ((zero_value (result_type op), Some (errors.New "error")), after_roll e, [])
  else
    let entered := EvInvoke (Name (next outer)) (Address (next outer)) op in
    if float64_lt (roll_of (after_roll e)) (errorRate inner)
    then ((zero_value (result_type op), Some (errors.New "error")),
          after_roll (after_roll e), [entered])
    else
      (value (after_roll_path inner op ctx a (after_roll (after_roll e))),
       final (after_roll_path inner op ctx a (after_roll (after_roll e))),
       entered :: events (after_roll_path inner op ctx a (after_roll (after_roll e)))).
Proof.
  intros Himpl Hinner.
  destruct (float64_lt (roll_of e) (errorRate outer)) eqn:Houter.
  - rewrite Erroring_method_guarded. apply guarded_injected. exact Houter.
  - rewrite Erroring_method_guarded, guarded_not_injected by exact Houter.
    unfold after_roll_path at 1. rewrite Himpl.
    unfold call. rewrite bind_run, Hinner.
    unfold tell, value, final, events; cbn [fst snd].
    rewrite Erroring_method_guarded.
    destruct (float64_lt (roll_of (after_roll e)) (errorRate inner)) eqn:Hin.
    + rewrite guarded_injected by exact Hin. reflexivity.
    + rewrite guarded_not_injected by exact Hin. reflexivity.
Qed.

(** X7: the first call on a client that NewErroring has just returned uses
    the first sample of the source seeded with the clock: whether it is
    injected is decided by the time of construction and the rate, not by
    the state the source had before. *)
Theorem first_call_after_construction (ctx : Context) (rate : float64)
    (n : Service) (op : Op) (a : tuple (arg_types op)) (e : Env) :
  snd (value (NewErroring ctx rate (Some n) e)) = None ->
  let seeded := mkEnv (rand_Seed (clock e)) (clock e) (backend e) in
  construct_then_call ctx rate (Some n) op a e =
  (Some (value (Erroring_method (mkErroring rate n) op ctx a seeded)),
   final (Erroring_method (mkErroring rate n) op ctx a seeded),
   events (Erroring_method (mkErroring rate n) op ctx a seeded))
  /\ (float64_lt (fst (rand_Float64 (rand_Seed (clock e)))) rate = true ->
      construct_then_call ctx rate (Some n) op a e =
      (Some (zero_value (result_type op), Some (errors.New "error")),
       mkEnv (snd (rand_Float64 (rand_Seed (clock e)))) (clock e) (backend e),
       [])).
Proof.
  intros Hacc seeded.
  assert (Hrun : NewErroring ctx rate (Some n) e =
                 ((Some (mkErroring rate n), None), seeded, [])).
  { revert Hacc. unfold NewErroring.
    destruct (float64_lt rate float64_0); [intros Hacc; discriminate Hacc |].
    destruct (float64_gt rate float64_1); [intros Hacc; discriminate Hacc |].
    reflexivity. }
  assert (Hfirst : construct_then_call ctx rate (Some n) op a e =
    (Some (value (Erroring_method (mkErroring rate n) op ctx a seeded)),
     final (Erroring_method (mkErroring rate n) op ctx a seeded),
     events (Erroring_method (mkErroring rate n) op ctx a seeded))).
  { unfold construct_then_call. rewrite bind_run, Hrun.
    unfold value, final, events; cbn [fst snd].
    rewrite bind_run. unfold value, final, events, ret; cbn [fst snd].
    rewrite app_nil_r. reflexivity. }
  split; [exact Hfirst |].
  intros Hroll. rewrite Hfirst, Erroring_method_guarded, guarded_injected.
  - reflexivity.
  - exact Hroll.
Qed.

(** X12: Validators and ValidatorsByPubKey assert the same provider
    interface, ValidatorsProvider.  From the same environment a call of
    the one reaches the wrapped service exactly when a call of the other
    does. *)
Theorem validators_methods_reach_together (s : Erroring) (ctx : Context)
    (a1 : tuple (arg_types OpValidators))
    (a2 : tuple (arg_types OpValidatorsByPubKey)) (e : Env) :
  events (Erroring_method s OpValidators ctx a1 e) = []
  <-> events (Erroring_method s OpValidatorsByPubKey ctx a2 e) = [].
Proof.
  rewrite !Erroring_method_guarded.
  destruct (float64_lt (roll_of e) (errorRate s)) eqn:Hroll.
  - rewrite !guarded_injected by exact Hroll. split; reflexivity.
  - rewrite !guarded_not_injected by exact Hroll.
    unfold after_roll_path. cbn [provider_of].
    destruct (implements (next s) ValidatorsProvider).
    + unfold call. rewrite !bind_run.
      unfold tell, events; cbn [snd app]. split; intros Hnil; discriminate Hnil.
    + split; reflexivity.
Qed.

End CompositionFacts.

(* ================================================================== *)
(** ** More on the multi-client SlotDuration *)

Section MoreMultiFacts.
Import eth2client multi run.
Context `{Externals}.

(** X8: SlotDuration looks at the first client of the roster only: two
    rosters with the same first client, or both empty, give the same run,
    whatever follows the first client. *)
Theorem SlotDuration_ignores_roster_tail (s1 s2 : Service) (ctx : Context)
    (e : Env) :
  hd_error (activeClients s1) = hd_error (activeClients s2) ->
  SlotDuration s1 ctx e = SlotDuration s2 ctx e.
Proof.
  intros Hhead. rewrite !SlotDuration_run.
  destruct (activeClients s1) as [|c1 r1]; destruct (activeClients s2) as [|c2 r2];
    try discriminate Hhead; [reflexivity |].
  injection Hhead as ->. reflexivity.
Qed.

(** X9: an Erroring client at the head of the roster.  When its sample
    injects, SlotDuration returns the injected error with a zero duration:
    the node behind the Erroring client is not called and no other client
    of the roster is tried.  Otherwise the call goes through the Erroring
    client's capability check to the node, all under the read lock. *)
Theorem SlotDuration_over_Erroring (s : Service) (ctx : Context) (e : Env)
    (c : eth2client.Service) (rest : list eth2client.Service)
    (er : testclients.Erroring) :
  activeClients s = c :: rest ->
  implements c SlotDurationProvider = true ->
  method c OpSlotDuration = testclients.Erroring_method er OpSlotDuration ->
  SlotDuration s ctx e =
  let entered := EvInvoke (Name c) (Address c) OpSlotDuration in
  if float64_lt (roll_of e) (testclients.errorRate er)
  then (Returned (0%Z, Some (errors.New "error")), after_roll e,
        [EvRLock; entered; EvRUnlock])
  else
    (Returned (value (after_roll_path er OpSlotDuration ctx tt (after_roll e))),
     final (after_roll_path er OpSlotDuration ctx tt (after_roll e)),
     EvRLock :: entered
       :: events (after_roll_path er OpSlotDuration ctx tt (after_roll e))
       ++ [EvRUnlock]).
Proof.
  intros Hroster Himpl Hmethod.
  rewrite SlotDuration_run, Hroster, Himpl.
  unfold call. rewrite bind_run, Hmethod.
  unfold tell, value, final, events; cbn [fst snd].
  rewrite Erroring_method_guarded. cbn zeta.
  destruct (float64_lt (roll_of e) (testclients.errorRate er)) eqn:Hroll.
  - rewrite guarded_injected by exact Hroll. reflexivity.
  - rewrite guarded_not_injected by exact Hroll. reflexivity.
Qed.

End MoreMultiFacts.

(* ================================================================== *)
(** ** The texts of errors and names *)

Section TextFacts.
Import eth2client testclients session.
Context `{Externals}.

Lemma append_cancel_l (p a b : string) :
  (p ++ a)%string = (p ++ b)%string -> a = b.
Proof.
  induction p as [|c p IH]; cbn [append]; intros Heq; [exact Heq |].
  injection Heq as Heq. exact (IH Heq).
Qed.

Lemma length_append (a b : string) :
  String.length (a ++ b)%string = String.length a + String.length b.
Proof.
  induction a as [|c a IH]; cbn [append String.length]; [reflexivity |].
  rewrite IH. reflexivity.
Qed.

Lemma append_cancel_r (a b s : string) :
  (a ++ s)%string = (b ++ s)%string -> a = b.
Proof.
  revert b. induction a as [|c a IH]; intros [|d b] Heq.
  - reflexivity.
  - exfalso. apply (f_equal String.length) in Heq.
    cbn [append String.length] in Heq. rewrite length_append in Heq. lia.
  - exfalso. apply (f_equal String.length) in Heq.
    cbn [append String.length] in Heq. rewrite length_append in Heq. lia.
  - cbn [append] in Heq. injection Heq as -> Heq.
    rewrite (IH b Heq). reflexivity.
Qed.

Lemma split_at_first_at (n1 n2 r1 r2 : string) :
  has_at n1 = false -> has_at n2 = false ->
  (n1 ++ String "@" r1)%string = (n2 ++ String "@" r2)%string ->
  n1 = n2 /\ r1 = r2.
Proof.
  revert n2. induction n1 as [|c n1 IH]; intros [|d n2] H1 H2 Heq;
    cbn [append has_at] in *.
  - injection Heq as ->. split; reflexivity.
  - injection Heq as <- _. cbn in H2. discriminate H2.
  - injection Heq as -> _. cbn in H1. discriminate H1.
  - injection Heq as -> Heq.
    apply orb_false_iff in H1. apply orb_false_iff in H2.
    destruct (IH n2 (proj2 H1) (proj2 H2) Heq) as [-> ->].
    split; reflexivity.
Qed.

(** X10: the "does not support this call" error identifies the client.
    For names without the character '@', two such errors are equal only
    if they were made for the same name and the same address. *)
Theorem unsupported_error_identifies_client (n1 a1 n2 a2 : string) :
  has_at n1 = false -> has_at n2 = false ->
  fmt.Errorf_does_not_support n1 a1 = fmt.Errorf_does_not_support n2 a2 ->
  n1 = n2 /\ a1 = a2.
Proof.
  intros H1 H2 Heq. unfold fmt.Errorf_does_not_support in Heq.
  injection Heq as Heq. cbn [append] in Heq.
  destruct (split_at_first_at _ _ _ _ H1 H2 Heq) as [Hn Ha].
  split; [exact Hn |]. exact (append_cancel_r _ _ _ Ha).
Qed.

(** Without the condition on the names the text is ambiguous. *)
Example unsupported_error_ambiguous :
  fmt.Errorf_does_not_support "a@b" "c" = fmt.Errorf_does_not_support "a" "b@c".
Proof. reflexivity. Qed.

(** X11: Name and Address keep the clients apart.  Two Erroring clients
    with the same error rate have the same Name only if the services they
    wrap have the same name, and the same Address only if the services
    they wrap have the same address. *)
Theorem decorated_identity_injective (format_float64 : float64 -> string)
    (s1 s2 : Erroring) :
  errorRate s1 = errorRate s2 ->
  (identity.Name format_float64 s1 = identity.Name format_float64 s2 ->
   Name (next s1) = Name (next s2))
  /\ (identity.Address format_float64 s1 = identity.Address format_float64 s2 ->
      Address (next s1) = Address (next s2)).
Proof.
  intros Hrate. unfold identity.Name, identity.Address. rewrite Hrate.
  split; intros Heq.
  - apply append_cancel_l in Heq. apply append_cancel_l in Heq.
    apply append_cancel_l in Heq. exact (append_cancel_r _ _ _ Heq).
  - apply append_cancel_l in Heq. apply append_cancel_l in Heq.
    apply append_cancel_l in Heq. exact Heq.
Qed.

End TextFacts.

(* ================================================================== *)
(** ** More concrete runs *)

Section MoreRuns.
Import eth2client testclients run session demo layers.

(** The source of the concrete world keeps its samples in [0, 1). *)
Lemma demo_samples_in_range (g : N) : in_unit_interval (fst (rand_Float64 g)).
Proof.
  unfold rand_Float64; cbn [externals]. unfold Float64; cbn [fst].
  destruct (N.modulo g 3) as [|[p|p|]]; split; reflexivity.
Qed.

Lemma NewErroring_effects_witness :
  rng (final (NewErroring tt float64_1 (Some nodeB) env0)) = rand_Seed (clock env0).
Proof.
  apply (proj2 (proj2 (proj2 (proj2
           (@NewErroring_effects externals tt float64_1 (Some nodeB) env0))))).
  reflexivity.
Defined.

Lemma NewErroring_accepted_rates_witness :
  snd (value (NewErroring tt (S754_finite false 4503599627370496 (-53))
                (Some nodeB) env0)) = None.
Proof.
  apply (proj2 (@NewErroring_accepted_rates externals tt
                  (S754_finite false 4503599627370496 (-53)) nodeB env0)).
  right. split; reflexivity.
Defined.

Lemma injection_monotone_in_rate_witness :
  value (maybeError noisy tt env0) = Some (errors.New "error").
Proof.
  apply (@injection_monotone_in_rate externals half_over_quiet noisy tt env0);
    reflexivity.
Defined.

Lemma full_rate_isolates_wrapped_service_witness :
  calls noisy three_calls env0 =
  ([Some (errors.New "error"); Some (errors.New "error"); Some (errors.New "error")],
   @mkEnv externals 3%N (clock env0) (backend env0), []).
Proof.
  apply (@full_rate_isolates_wrapped_service externals noisy three_calls env0).
  - exact demo_samples_in_range.
  - reflexivity.
Defined.

Lemma layered_injectors_witness :
  Erroring_method half_over_quiet OpSlotDuration tt tt (@mkEnv externals 1%N 0%Z 0) =
  ((12000000000%Z, None), @mkEnv externals 3%N 0%Z 1,
   [EvInvoke "erroring(0,B)" "erroring:0,http://b:5052" OpSlotDuration;
    EvInvoke "B" "http://b:5052" OpSlotDuration]).
Proof.
  apply (@layered_injectors externals half_over_quiet quiet OpSlotDuration tt tt
           (@mkEnv externals 1%N 0%Z 0)); reflexivity.
Defined.

Lemma first_call_after_construction_witness :
  construct_then_call tt float64_1 (Some nodeB) OpSlotDuration tt env0 =
  (Some (0%Z, Some (errors.New "error")),
   @mkEnv externals 1600000000000000001%N (clock env0) (backend env0), []).
Proof.
  apply (proj2 (@first_call_after_construction externals tt float64_1 nodeB
                  OpSlotDuration tt env0 eq_refl)).
  reflexivity.
Defined.

Lemma SlotDuration_ignores_roster_tail_witness :
  multi.SlotDuration failing_then_healthy tt env0 =
  multi.SlotDuration (multi.mkService [nodeA]) tt env0.
Proof.
  apply (@SlotDuration_ignores_roster_tail externals failing_then_healthy
           (multi.mkService [nodeA]) tt env0).
  reflexivity.
Defined.

Lemma SlotDuration_over_Erroring_witness :
  multi.SlotDuration noisy_then_healthy tt env0 =
  (multi.Returned (0%Z, Some (errors.New "error")), after_roll env0,
   [EvRLock;
    EvInvoke "erroring(1,B)" "erroring:1,http://b:5052" OpSlotDuration;
    EvRUnlock]).
Proof.
  apply (@SlotDuration_over_Erroring externals noisy_then_healthy tt env0
           noisy_service [nodeB] noisy); reflexivity.
Defined.

Lemma unsupported_error_identifies_client_witness :
  "bare" = "bare" /\ "http://c:5052" = "http://c:5052".
Proof.
  apply (@unsupported_error_identifies_client "bare" "http://c:5052"
           "bare" "http://c:5052"); reflexivity.
Defined.

(** The identity of [quiet] with the printer of the examples. *)
Example quiet_identity :
  identity.Name print_rate quiet = "erroring(0,B)"
  /\ identity.Address print_rate quiet = "erroring:0,http://b:5052".
Proof. split; reflexivity. Qed.

Lemma decorated_identity_injective_witness :
  Name (next quiet) = Name (next quiet).
Proof.
  apply (proj1 (@decorated_identity_injective externals print_rate quiet quiet
                  eq_refl)).
  reflexivity.
Defined.

(** The roster that holds only the client [echo]: the client is called,
    and its answer is returned as it is. *)
Example echo_only_run :
  multi.SlotDuration echo_only tt env0 =
  (multi.Returned (0%Z, Some (errors.New "no active Ethereum 2 clients")),
   served env0,
   [EvRLock; EvInvoke "nested" "multi:nested" OpSlotDuration; EvRUnlock]).
Proof. reflexivity. Qed.

(** C5, counterexample: SlotDuration returns a zero duration with the error
    "no active Ethereum 2 clients" on a roster that is not empty, when the
    first client of the roster returns that pair. *)
Lemma SlotDuration_no_active_error_with_clients :
  ~ (value (multi.SlotDuration echo_only tt env0) =
       multi.Returned (0%Z, Some (errors.New "no active Ethereum 2 clients"))
     <-> multi.activeClients echo_only = []).
Proof.
  intros [Hempty _]. rewrite echo_only_run in Hempty.
  specialize (Hempty eq_refl). discriminate Hempty.
Qed.

End MoreRuns.
